(** * SUSHI harvesting worker: normalisation and pivot pipeline

    A shallow embedding of [src/worker.js]: the month range deriver
    ([getMonthColumns], [formatMonthKey]), the row normaliser
    ([processApiResponse], [createErrorEntry]), the per-account step of
    the harvesting loop, and the two renderers ([formatAsPivot],
    [convertToCSV]), followed by the properties established about them.

    Conventions of the embedding.
    - Integers are [Z].  JavaScript numbers hold the integers up to
      [2^53 - 1] exactly; statements about sums of the counts of the
      legacy schema carry this range as a hypothesis ([exactCounts]).
    - Strings are [string], the UTF-8 bytes of the JavaScript string;
      [toLowerCase] is modelled on ASCII letters, and the default [sort]
      order compares the UTF-16 code units that the bytes stand for.
    - A [Date] is its calendar fields.  The worker runs with UTC as local
      time, so [getFullYear]/[getMonth]/[getDate] read the fields of the
      parsed ISO date directly; request dates arrive as [YYYY-MM-DD].
    - JavaScript objects used as dictionaries are insertion-ordered
      association lists ([JS.obj]) where the code enumerates them, and
      [gmap string Z] where it only reads and writes by key.  A key
      that names a member of [Object.prototype] ([JS.prototypeKeys])
      reads as the inherited member in JavaScript.  In the first pass of
      the legacy branch this makes the normaliser throw:
      [processingError] says when, the harvesting loop catches the
      error, and [processApiResponse] is what the normaliser returns
      otherwise.  In the pivot an institution name of this kind makes
      the program throw; the statement about the order of the
      institutions carries the absence of such names as a hypothesis.
    - The month columns of a row object, and of a totals object, are a
      map of their own next to the fixed properties; no month label is
      the name of a fixed property ([getMonthColumns_not_properties]). *)

From Stdlib Require Import ZArith Lia Ascii String List.
From stdpp Require Import gmap strings list fin_maps.
From Stdlib Require Import Sorted.

Local Open Scope string_scope.
Local Open Scope list_scope.
Local Open Scope Z_scope.

(** ** JavaScript runtime primitives used by the worker *)

Module JS.

(** *** Number to string, [String.prototype.slice] with a negative start *)

Definition digitChar (d : Z) : ascii := ascii_of_nat (48 + Z.to_nat d).

Fixpoint digitsRev (fuel : nat) (n : Z) : list ascii :=
  match fuel with
  | O => []
  | S f => digitChar (n mod 10)
             :: (if n / 10 =? 0 then [] else digitsRev f (n / 10))
  end.

Definition natToString (n : Z) : string :=
  string_of_list_ascii (rev (digitsRev (S (Z.to_nat (Z.log2 n))) n)).

(** [n.toString()] for an integer [n]. *)
Definition toString (n : Z) : string :=
  if n <? 0 then String "-" (natToString (- n)) else natToString n.

(** [s.slice(-k)]: the last [k] characters, all of [s] when it is shorter. *)
Definition slice_neg (k : nat) (s : string) : string :=
  let cs := list_ascii_of_string s in
  string_of_list_ascii (skipn (length cs - k) cs).

(** *** [parseInt] *)

Definition isSpace (c : ascii) : bool :=
  let n := nat_of_ascii c in
  ((9 <=? n)%nat && (n <=? 13)%nat) || (n =? 32)%nat.

Fixpoint trimStart (s : string) : string :=
  match s with
  | String c s' => if isSpace c then trimStart s' else s
  | EmptyString => s
  end.

Definition digitValue (radix : Z) (c : ascii) : option Z :=
  let n := Z.of_nat (nat_of_ascii c) in
  let v := if (48 <=? n) && (n <=? 57) then Some (n - 48)
           else if (97 <=? n) && (n <=? 122) then Some (n - 87)
           else if (65 <=? n) && (n <=? 90) then Some (n - 55)
           else None in
  match v with
  | Some d => if d <? radix then Some d else None
  | None => None
  end.

Fixpoint parseDigits (radix : Z) (acc : option Z) (s : string) : option Z :=
  match s with
  | String c s' =>
      match digitValue radix c with
      | Some d => parseDigits radix (Some (radix * default 0 acc + d)) s'
      | None => acc
      end
  | EmptyString => acc
  end.

Definition parseUnsigned (s : string) : option Z :=
  match s with
  | String "0" (String "x" s') => parseDigits 16 None s'
  | String "0" (String "X" s') => parseDigits 16 None s'
  | _ => parseDigits 10 None s
  end.

(** [parseInt(s)] on a string; [None] is [NaN]. *)
Definition parseIntStr (s : string) : option Z :=
  match trimStart s with
  | String "-" s' => Z.opp <$> parseUnsigned s'
  | String "+" s' => parseUnsigned s'
  | s' => parseUnsigned s'
  end.

(** The scalar values the worker hands to [parseInt]. *)
Inductive val :=
  | Num (n : Z)
  | Str (s : string)
  | Undefined.

(** [parseInt(v)]; [None] is [NaN].  A number is read back from its
    decimal notation as the integer it is.  This is what the program
    computes for the integers that a JavaScript number holds exactly and
    prints in full, those up to [2^53 - 1] in absolute value; beyond
    [10^21] the program parses the exponent notation of the number
    instead.  The statements about the counts of the legacy schema are
    stated for counts in the exact range ([exactCounts]). *)
Definition parseInt (v : val) : option Z :=
  match v with
  | Num n => Some n
  | Str s => parseIntStr s
  | Undefined => None
  end.

(** [parseInt(v) || 0]: [NaN] and [0] both give [0]. *)
Definition parseIntOr0 (v : val) : Z := default 0 (parseInt v).

(** *** [toLowerCase], [split], [join] *)

Definition lowerChar (c : ascii) : ascii :=
  let n := nat_of_ascii c in
  if ((65 <=? n)%nat && (n <=? 90)%nat) then ascii_of_nat (n + 32) else c.

Fixpoint toLowerCase (s : string) : string :=
  match s with
  | String c s' => String (lowerChar c) (toLowerCase s')
  | EmptyString => EmptyString
  end.

Fixpoint split_go (sep : ascii) (cur : string) (s : string) : list string :=
  match s with
  | EmptyString => [String.rev cur]
  | String c s' =>
      if Ascii.eqb c sep then String.rev cur :: split_go sep "" s'
      else split_go sep (String c cur) s'
  end.

(** [s.split(sep)] for a one-character separator. *)
Definition split (sep : ascii) (s : string) : list string := split_go sep "" s.

(** [xs.join(sep)]. *)
Fixpoint join (sep : string) (xs : list string) : string :=
  match xs with
  | [] => ""
  | [x] => x
  | x :: rest => x +:+ sep +:+ join sep rest
  end.

(** [s.repeat(n)]. *)
Fixpoint repeat (s : string) (n : nat) : string :=
  match n with
  | O => ""
  | S n' => s +:+ repeat s n'
  end.

(** The replacement that doubles every quote character of [s]. *)
Fixpoint doubleQuotes (s : string) : string :=
  match s with
  | EmptyString => EmptyString
  | String c s' =>
      if Ascii.eqb c (ascii_of_nat 34)
      then String c (String c (doubleQuotes s'))
      else String c (doubleQuotes s')
  end.

(** *** Objects enumerated by the code: insertion-ordered dictionaries *)

Definition obj (V : Type) : Type := list (string * V).

Fixpoint get {V} (o : obj V) (k : string) : option V :=
  match o with
  | [] => None
  | (k', v) :: o' => if String.eqb k' k then Some v else get o' k
  end.

(** [o[k] = v]: overwrite in place, or append a new property. *)
Fixpoint set {V} (o : obj V) (k : string) (v : V) : obj V :=
  match o with
  | [] => [(k, v)]
  | (k', v') :: o' =>
      if String.eqb k' k then (k', v) :: o' else (k', v') :: set o' k v
  end.

(** A canonical array index: the decimal form of an integer below 2^32 - 1.
    [Object.keys] lists such keys first, in ascending numeric order. *)
Definition indexKey (k : string) : option Z :=
  match parseDigits 10 None k with
  | Some n => if String.eqb (toString n) k && (n <? 4294967295)
              then Some n else None
  | None => None
  end.

Fixpoint insertIndexed {V} (n : Z) (e : string * V)
    (l : list (Z * (string * V))) : list (Z * (string * V)) :=
  match l with
  | [] => [(n, e)]
  | (m, e') :: l' =>
      if n <? m then (n, e) :: l else (m, e') :: insertIndexed n e l'
  end.

Definition entries {V} (o : obj V) : list (string * V) :=
  let indexed :=
    foldl (fun acc e => match indexKey (fst e) with
                        | Some n => insertIndexed n e acc
                        | None => acc
                        end) [] o in
  map snd indexed
    ++ List.filter (fun e => match indexKey (fst e) with
                             | None => true
                             | Some _ => false
                             end) o.

Definition keys {V} (o : obj V) : list string := map fst (entries o).

(** *** [Array.prototype.sort] *)

Fixpoint insertBy {A} (cmp : A -> A -> Z) (x : A) (l : list A) : list A :=
  match l with
  | [] => [x]
  | y :: l' => if 0 <? cmp y x then x :: l else y :: insertBy cmp x l'
  end.

(** A stable sort driven by a comparator returning a number ([NaN] as 0). *)
Definition sortBy {A} (cmp : A -> A -> Z) (l : list A) : list A :=
  foldl (fun acc x => insertBy cmp x acc) [] l.

(** The UTF-16 code units of a string, from its UTF-8 bytes: a character
    of up to three bytes is one code unit, a character of four bytes is
    a surrogate pair.  (Bytes that are not well-formed UTF-8 do not come
    out of the decoding of a response body.) *)
Fixpoint codeUnitsOf (bytes : list Z) : list Z :=
  match bytes with
  | [] => []
  | b0 :: rest =>
      if b0 <? 128 then b0 :: codeUnitsOf rest
      else if b0 <? 224 then
        match rest with
        | b1 :: rest1 =>
            (Z.land b0 31 * 64 + Z.land b1 63) :: codeUnitsOf rest1
        | _ => [65533]
        end
      else if b0 <? 240 then
        match rest with
        | b1 :: b2 :: rest2 =>
            (Z.land b0 15 * 4096 + Z.land b1 63 * 64 + Z.land b2 63)
              :: codeUnitsOf rest2
        | _ => [65533]
        end
      else
        match rest with
        | b1 :: b2 :: b3 :: rest3 =>
            let codePoint :=
              Z.land b0 7 * 262144 + Z.land b1 63 * 4096
              + Z.land b2 63 * 64 + Z.land b3 63 in
            let v := codePoint - 65536 in
            (55296 + v / 1024) :: (56320 + v mod 1024) :: codeUnitsOf rest3
        | _ => [65533]
        end
  end.

Definition codeUnits (s : string) : list Z :=
  codeUnitsOf (map (fun c => Z.of_N (N_of_ascii c)) (list_ascii_of_string s)).

(** The order of two sequences of code units: the first difference
    decides, and a proper prefix comes first. *)
Fixpoint compareUnits (a b : list Z) : comparison :=
  match a, b with
  | [], [] => Eq
  | [], _ :: _ => Lt
  | _ :: _, [] => Gt
  | x :: a', y :: b' =>
      match Z.compare x y with
      | Eq => compareUnits a' b'
      | c => c
      end
  end.

(** The default comparator of [sort]: strings are compared by their
    UTF-16 code units. *)
Definition compareStrings (a b : string) : Z :=
  match compareUnits (codeUnits a) (codeUnits b) with
  | Lt => -1
  | Eq => 0
  | Gt => 1
  end.

(** [xs.sort()] on strings. *)
Definition sort (l : list string) : list string := sortBy compareStrings l.

(** *** [Object.prototype]

    The names of its members: on an object literal, reading one of these
    keys finds the inherited member, a function or, for [__proto__], the
    prototype itself, and none of them is listed by [Object.keys]. *)
Definition prototypeKeys : list string :=
  ["constructor"; "__defineGetter__"; "__defineSetter__"; "hasOwnProperty";
   "__lookupGetter__"; "__lookupSetter__"; "isPrototypeOf";
   "propertyIsEnumerable"; "toString"; "valueOf"; "__proto__";
   "toLocaleString"].

Definition isPrototypeKey (k : string) : bool :=
  existsb (String.eqb k) prototypeKeys.

(** *** [Date] *)

Record date := mkDate { getFullYear : Z; getMonth : Z; getDate : Z }.

(** [new Date(y, m, d)]: a year from 0 to 99 means 1900 + y, and a month
    outside 0..11 carries into the year. *)
Definition Date_ymd (y m d : Z) : date :=
  let y' := if (0 <=? y) && (y <=? 99) then 1900 + y else y in
  {| getFullYear := y' + m / 12; getMonth := m mod 12; getDate := d |}.

(** [d.setMonth(m)]; the day of the month is kept (the worker only calls
    it on the first day of a month, which every month has). *)
Definition setMonth (d : date) (m : Z) : date :=
  {| getFullYear := getFullYear d + m / 12;
     getMonth := m mod 12;
     getDate := getDate d |}.

(** [a <= b] on the time values of two calendar dates. *)
Definition date_leb (a b : date) : bool :=
  (getFullYear a <? getFullYear b)
  || ((getFullYear a =? getFullYear b)
      && ((getMonth a <? getMonth b)
          || ((getMonth a =? getMonth b) && (getDate a <=? getDate b)))).

End JS.

Import JS.

(** ** Month Range Deriver *)

Definition monthNames : list string :=
  ["Jan"; "Feb"; "Mar"; "Apr"; "May"; "Jun";
   "Jul"; "Aug"; "Sep"; "Oct"; "Nov"; "Dec"].

(** [months[i]] inside a template literal: out of range reads
    [undefined], printed as such. *)
Definition monthAt (i : Z) : string :=
  if i <? 0 then "undefined" else nth (Z.to_nat i) monthNames "undefined".

Definition formatMonthKey (d : date) : string :=
  let month := monthAt (getMonth d) in
  let year := slice_neg 2 (toString (getFullYear d)) in
  month +:+ "-" +:+ year.

Fixpoint monthLoop (fuel : nat) (months : list string) (current end_ : date)
    : option (list string) :=
  match fuel with
  | O => None
  | S fuel' =>
      if date_leb current end_
      then monthLoop fuel' (months ++ [formatMonthKey current])
             (setMonth current (getMonth current + 1)) end_
      else Some months
  end.

(** A bound on the iterations of the [while] loop: the loop stops at the
    latest once [current] has left the year of [end_]. *)
Definition monthLoopBound (current end_ : date) : nat :=
  S (Z.to_nat (12 * (getFullYear end_ - getFullYear current + 1))).

Definition getMonthColumns (beginDate endDate : date) : list string :=
  let start := beginDate in
  let end_ := endDate in
  let current := Date_ymd (getFullYear start) (getMonth start) 1 in
  default [] (monthLoop (monthLoopBound current end_) [] current end_).

(** ** Data model *)

(** Request parameters, read-only during a run. *)
Record RequestData := {
  format : string;
  report_type : string;
  begin_date : date;
  end_date : date;
  formatted : bool
}.

Record Account := { customer_id : string; requestor_id : string }.

(** One normalised row.  [Access_Type] and [YOP] are properties that only
    some report types attach; [monthValues] holds the properties keyed by
    month label. *)
Record Row := {
  Institution_Name : string;
  Institution_ID : string;
  Title : string;
  Publisher : string;
  Publisher_ID : string;
  Platform : string;
  DOI : string;
  Proprietary_ID : string;
  Print_ISSN : string;
  Online_ISSN : string;
  URI : string;
  Metric_Type : string;
  Reporting_Period_Total : Z;
  Access_Type : option string;
  YOP : option string;
  monthValues : gmap string Z
}.

(** *** The report payload, in its two shapes *)

Record TypedEntry := { Type_ : string; Value : string }.

(** A [Proprietary] property: absent, a string, or a list of strings. *)
Inductive PropVal :=
  | PropAbsent
  | PropStr (s : string)
  | PropArr (l : list string).

Record IdObject := {
  o_DOI : string;
  o_Proprietary : PropVal;
  o_Print_ISSN : string;
  o_Online_ISSN : string
}.

(** An identifier container: absent, a list of typed entries (legacy
    schema) or an object with named properties (current schema). *)
Inductive IdContainer :=
  | IdAbsent
  | IdArr (l : list TypedEntry)
  | IdObj (o : IdObject).

Record Instance := { i_Metric_Type : string; i_Count : val }.

(** A legacy performance block; [Period] carries the parsed [Begin_Date]. *)
Record Performance := {
  Period : option date;
  Instances : list Instance
}.

(** A current-schema breakdown entry; [ap_Performance] lists the entries
    of the per-metric object, each with the entries of its per-month
    object, in enumeration order. *)
Record AttrPerf := {
  ap_Access_Type : string;
  ap_YOP : string;
  ap_Performance : list (string * list (string * val))
}.

Record ReportItem := {
  it_Title : string;
  it_Publisher : string;
  it_Publisher_ID : IdContainer;
  it_Platform : string;
  it_Item_ID : IdContainer;
  it_Access_Type : string;
  it_YOP : string;
  it_Year_of_Publication : string;
  it_Performance : list Performance;
  it_Attribute_Performance : option (list AttrPerf)
}.

Record ReportHeader := {
  h_Institution_Name : string;
  h_Institution_ID : IdContainer
}.

Record JsonData := {
  Report_Header : option ReportHeader;
  Report_Items : option (list ReportItem)
}.

(** ** Item Field Extractor *)

(** [String(v)] of a [Proprietary] property. *)
Definition propString (p : PropVal) : string :=
  match p with
  | PropAbsent => ""
  | PropStr s => s
  | PropArr l => join "," l
  end.

(** [p?.[0] || p || ''], as it is later printed. *)
Definition firstOrSelf (p : PropVal) : string :=
  match p with
  | PropAbsent => ""
  | PropStr (String c _) => String c ""
  | PropStr EmptyString => ""
  | PropArr (x :: rest) => if String.eqb x "" then join "," (x :: rest) else x
  | PropArr [] => ""
  end.

Definition findProprietary (l : list TypedEntry) : string :=
  match List.find (fun id => String.eqb (Type_ id) "Proprietary") l with
  | Some id => Value id
  | None => ""
  end.

Definition getInstitutionId (jsonData : JsonData) : string :=
  match Report_Header jsonData with
  | None => ""
  | Some h =>
      match h_Institution_ID h with
      | IdAbsent => ""
      | IdArr l => findProprietary l
      | IdObj o => firstOrSelf (o_Proprietary o)
      end
  end.

Record ItemData := {
  title : string;
  publisher : string;
  publisher_id : string;
  platform : string;
  doi : string;
  proprietary_id : string;
  print_issn : string;
  online_issn : string;
  uri : string
}.

(** The four identifiers, updated by one typed entry of the list form. *)
Definition scanId (ids : string * string * string * string) (id : TypedEntry)
    : string * string * string * string :=
  let '(doi, proprietary_id, print_issn, online_issn) := ids in
  if String.eqb (Type_ id) "DOI" then (Value id, proprietary_id, print_issn, online_issn)
  else if String.eqb (Type_ id) "Proprietary" then (doi, Value id, print_issn, online_issn)
  else if String.eqb (Type_ id) "Print_ISSN" then (doi, proprietary_id, Value id, online_issn)
  else if String.eqb (Type_ id) "Online_ISSN" then (doi, proprietary_id, print_issn, Value id)
  else ids.

Definition extractItemData (item : ReportItem) : ItemData :=
  let '(doi, proprietary_id, print_issn, online_issn) :=
    match it_Item_ID item with
    | IdArr itemIds => foldl scanId ("", "", "", "") itemIds
    | IdObj o =>
        (o_DOI o, propString (o_Proprietary o), o_Print_ISSN o, o_Online_ISSN o)
    | IdAbsent => ("", "", "", "")
    end in
  let publisher_id :=
    match it_Publisher_ID item with
    | IdArr publisherIds => findProprietary publisherIds
    | IdObj o => firstOrSelf (o_Proprietary o)
    | IdAbsent => ""
    end in
  {| title := it_Title item;
     publisher := it_Publisher item;
     publisher_id := publisher_id;
     platform := it_Platform item;
     doi := doi;
     proprietary_id := proprietary_id;
     print_issn := print_issn;
     online_issn := online_issn;
     uri := "" |}.

(** ** Row Normalizer *)

Definition convertApiMonthToDisplayMonth (apiMonth : string) : string :=
  let parts := split "-" apiMonth in
  let year := nth 0 parts "" in
  let monthName :=
    match parts with
    | _ :: monthNum :: _ =>
        match parseIntStr monthNum with
        | Some n => monthAt (n - 1)
        | None => "undefined"
        end
    | _ => "undefined"
    end in
  let shortYear := slice_neg 2 year in
  monthName +:+ "-" +:+ shortYear.

Definition isReportType (requestData : RequestData) (t : string) : bool :=
  String.eqb (toLowerCase (report_type requestData)) t.

(** [monthColumns.forEach(month => entry[month] = values[month] || 0)]. *)
Definition addMonthlyData (monthColumns : list string) (values : gmap string Z)
    : gmap string Z :=
  foldl (fun entry month => <[month := default 0 (values !! month)]> entry)
        ∅ monthColumns.

Definition mkEntry (requestData : RequestData) (monthColumns : list string)
    (institutionName institutionId : string) (baseData : ItemData)
    (metricType : string) (total : Z) (accessType yop : string)
    (values : gmap string Z) : Row :=
  {| Institution_Name := institutionName;
     Institution_ID := institutionId;
     Title := title baseData;
     Publisher := publisher baseData;
     Publisher_ID := publisher_id baseData;
     Platform := platform baseData;
     DOI := doi baseData;
     Proprietary_ID := proprietary_id baseData;
     Print_ISSN := print_issn baseData;
     Online_ISSN := online_issn baseData;
     URI := uri baseData;
     Metric_Type := metricType;
     Reporting_Period_Total := total;
     Access_Type := if isReportType requestData "tr_j3" then Some accessType else None;
     YOP := if isReportType requestData "tr_j4" then Some yop else None;
     monthValues := addMonthlyData monthColumns values |}.

(** *** Current schema (5.1) *)

(** The inner loop over one per-month object: the values by display
    month, and their running total. *)
Definition collectMonthly (monthlyData : list (string * val)) : gmap string Z * Z :=
  foldl (fun '(monthlyValues, total) '(month, count) =>
           let monthValue := parseIntOr0 count in
           let monthKey := convertApiMonthToDisplayMonth month in
           (<[monthKey := monthValue]> monthlyValues, total + monthValue))
        (∅, 0) monthlyData.

Definition entry51 (requestData : RequestData) (monthColumns : list string)
    (institutionName institutionId : string) (baseData : ItemData)
    (attrPerf : AttrPerf) (metric : string * list (string * val)) : Row :=
  let '(metricType, monthlyData) := metric in
  let '(monthlyValues, total) := collectMonthly monthlyData in
  mkEntry requestData monthColumns institutionName institutionId baseData
    metricType total (ap_Access_Type attrPerf) (ap_YOP attrPerf) monthlyValues.

Definition rows51 (requestData : RequestData) (monthColumns : list string)
    (institutionName institutionId : string) (item : ReportItem) : list Row :=
  let baseData := extractItemData item in
  flat_map (fun attrPerf =>
              map (entry51 requestData monthColumns institutionName
                     institutionId baseData attrPerf)
                  (ap_Performance attrPerf))
           (default [] (it_Attribute_Performance item)).

(** *** Legacy schema (5) *)

Record MetricAcc := { monthlyValues : gmap string Z; total : Z }.

(** One metric instance of a period: create the accumulator of its metric
    type when it is new, then store the count under the month key and add
    it to the total. *)
Definition recordInstance (monthKey : string) (metricData : obj MetricAcc)
    (instance : Instance) : obj MetricAcc :=
  let metricType := i_Metric_Type instance in
  let count := parseIntOr0 (i_Count instance) in
  let cur := default {| monthlyValues := ∅; total := 0 |}
                     (get metricData metricType) in
  set metricData metricType
      {| monthlyValues := <[monthKey := count]> (monthlyValues cur);
         total := total cur + count |}.

(** First pass: one performance block. *)
Definition recordPerformance (metricData : obj MetricAcc) (performance : Performance)
    : obj MetricAcc :=
  match Period performance with
  | None => metricData
  | Some beginDate =>
      let monthKey := formatMonthKey beginDate in
      foldl (recordInstance monthKey) metricData (Instances performance)
  end.

Definition collectMetrics (item : ReportItem) : obj MetricAcc :=
  foldl recordPerformance [] (it_Performance item).

Definition legacyYop (item : ReportItem) : string :=
  if String.eqb (it_YOP item) "" then it_Year_of_Publication item else it_YOP item.

(** Second pass: one row per metric type encountered. *)
Definition rowsLegacy (requestData : RequestData) (monthColumns : list string)
    (institutionName institutionId : string) (item : ReportItem) : list Row :=
  let baseData := extractItemData item in
  let accessType := it_Access_Type item in
  let metricData := collectMetrics item in
  map (fun '(metricType, data) =>
         mkEntry requestData monthColumns institutionName institutionId baseData
           metricType (total data) accessType (legacyYop item) (monthlyValues data))
      (entries metricData).

(** *** The normaliser *)

Record Processed := { processed_entries : list Row; success : bool }.

Definition placeholder (requestData : RequestData) (monthColumns : list string)
    (institutionName institutionId titleText metricType : string) : Row :=
  {| Institution_Name := institutionName;
     Institution_ID := institutionId;
     Title := titleText;
     Publisher := "";
     Publisher_ID := "";
     Platform := "";
     DOI := "";
     Proprietary_ID := "";
     Print_ISSN := "";
     Online_ISSN := "";
     URI := "";
     Metric_Type := metricType;
     Reporting_Period_Total := 0;
     Access_Type := if isReportType requestData "tr_j3" then Some "" else None;
     YOP := if isReportType requestData "tr_j4" then Some "" else None;
     monthValues := foldl (fun entry month => <[month := 0]> entry) ∅ monthColumns |}.

Definition isVersion51 (requestData : RequestData) (reportItems : list ReportItem) : bool :=
  String.eqb (format requestData) "5.1"
  || match reportItems with
     | item :: _ => bool_decide (is_Some (it_Attribute_Performance item))
     | [] => false
     end.

Definition processApiResponse (jsonData : JsonData) (requestData : RequestData)
    (account : Account) : Processed :=
  let institutionName :=
    match Report_Header jsonData with
    | Some h => h_Institution_Name h
    | None => ""
    end in
  let institutionId := getInstitutionId jsonData in
  let reportItems := default [] (Report_Items jsonData) in
  let monthColumns := getMonthColumns (begin_date requestData) (end_date requestData) in
  match reportItems with
  | _ :: _ =>
      let perItem :=
        if isVersion51 requestData reportItems
        then rows51 requestData monthColumns institutionName institutionId
        else rowsLegacy requestData monthColumns institutionName institutionId in
      {| processed_entries := flat_map perItem reportItems; success := true |}
  | [] =>
      let noDataEntry :=
        placeholder requestData monthColumns
          (if String.eqb institutionName "" then "No Data" else institutionName)
          institutionId "No usage data for this period" "No Data" in
      {| processed_entries := [noDataEntry]; success := true |}
  end.

Definition createErrorEntry (message : string) (requestData : RequestData)
    (account : Account) : Row :=
  let monthColumns := getMonthColumns (begin_date requestData) (end_date requestData) in
  placeholder requestData monthColumns "ERROR" (customer_id account)
    ("Failed: " +:+ message) "ERROR".

(** ** Pivot Aggregator *)

(** A totals object: the [total] property and one property per month. *)
Record Totals := { totals_total : Z; totals_months : gmap string Z }.

Record PivotRow := {
  label : string;
  level : nat;
  row_total : Z;
  months : list Z
}.

(** [{ total: 0 }] followed by [monthColumns.forEach(m => t[m] = 0)]. *)
Definition zeroTotals (monthColumns : list string) : Totals :=
  {| totals_total := 0;
     totals_months := foldl (fun t m => <[m := 0]> t) ∅ monthColumns |}.

(** [parseInt(row[m]) || 0]. *)
Definition rowMonth (row : Row) (m : string) : Z :=
  default 0 (monthValues row !! m).

(** [t.total += parseInt(row.Reporting_Period_Total) || 0] and, for each
    month column, [t[m] += parseInt(row[m]) || 0]. *)
Definition addRow (monthColumns : list string) (t : Totals) (row : Row) : Totals :=
  {| totals_total := totals_total t + Reporting_Period_Total row;
     totals_months :=
       foldl (fun tm m => <[m := default 0 (tm !! m) + rowMonth row m]> tm)
             (totals_months t) monthColumns |}.

(** [acc.total += t.total] and, for each month column, [acc[m] += t[m]]. *)
Definition addTotals (monthColumns : list string) (acc t : Totals) : Totals :=
  {| totals_total := totals_total acc + totals_total t;
     totals_months :=
       foldl (fun tm m =>
                <[m := default 0 (tm !! m) + default 0 (totals_months t !! m)]> tm)
             (totals_months acc) monthColumns |}.

Definition pivotRow (monthColumns : list string) (lbl : string) (lvl : nat)
    (t : Totals) : PivotRow :=
  {| label := lbl;
     level := lvl;
     row_total := totals_total t;
     months := map (fun m => default 0 (totals_months t !! m)) monthColumns |}.

Definition accessTypeOrder : list string := ["Controlled"; "Free_To_Read"; "Open"].

Definition metricOrder : list string :=
  ["Total_Item_Investigations"; "Total_Item_Requests";
   "Unique_Item_Investigations"; "Unique_Item_Requests"].

(** [v || 'Unknown'] for a property that may be absent. *)
Definition orUnknown (v : option string) : string :=
  match v with
  | Some s => if String.eqb s "" then "Unknown" else s
  | None => "Unknown"
  end.

(** Grouping by a secondary key, then by metric type. *)
Definition groupTwoLevels (monthColumns : list string) (key : Row -> string)
    (instRows : list Row) : obj (obj Totals) :=
  foldl (fun groupedData row =>
           let k := key row in
           let inner := default [] (get groupedData k) in
           let metricType := Metric_Type row in
           let cur := default (zeroTotals monthColumns) (get inner metricType) in
           set groupedData k (set inner metricType (addRow monthColumns cur row)))
        [] instRows.

(** Grouping by metric type only. *)
Definition groupByMetric (monthColumns : list string) (instRows : list Row)
    : obj Totals :=
  foldl (fun groupedData row =>
           let metricType := Metric_Type row in
           let cur := default (zeroTotals monthColumns) (get groupedData metricType) in
           set groupedData metricType (addRow monthColumns cur row))
        [] instRows.

(** The loop over [metricOrder] that adds the metrics present in a group. *)
Definition addMetrics (monthColumns : list string) (group : obj Totals)
    (acc : Totals) : Totals :=
  foldl (fun acc metricType =>
           match get group metricType with
           | None => acc
           | Some metricData => addTotals monthColumns acc metricData
           end)
        acc metricOrder.

(** The level-2 rows of a group, in [metricOrder]. *)
Definition metricRows (monthColumns : list string) (lvl : nat) (group : obj Totals)
    : list PivotRow :=
  flat_map (fun metricType =>
              match get group metricType with
              | None => []
              | Some metricData => [pivotRow monthColumns metricType lvl metricData]
              end)
           metricOrder.

(** One secondary-key block: its level-1 row, then its metric rows. *)
Definition groupRows (monthColumns : list string) (key : string) (group : obj Totals)
    : list PivotRow :=
  pivotRow monthColumns key 1 (addMetrics monthColumns group (zeroTotals monthColumns))
    :: metricRows monthColumns 2 group.

Definition pivotTrJ3 (monthColumns : list string) (instName : string)
    (instRows : list Row) : list PivotRow * Totals :=
  let groupedData :=
    groupTwoLevels monthColumns (fun row => orUnknown (Access_Type row)) instRows in
  let instTotals :=
    foldl (fun instTotals accessType =>
             match get groupedData accessType with
             | None => instTotals
             | Some group =>
                 addTotals monthColumns instTotals
                   (addMetrics monthColumns group (zeroTotals monthColumns))
             end)
          (zeroTotals monthColumns) accessTypeOrder in
  (pivotRow monthColumns instName 0 instTotals
     :: flat_map (fun accessType =>
                    match get groupedData accessType with
                    | None => []
                    | Some group => groupRows monthColumns accessType group
                    end)
                 accessTypeOrder,
   instTotals).

(** The comparator of the YOP sort: Unknown last, otherwise descending by
    [parseInt]; a [NaN] difference counts as 0. *)
Definition compareYop (a b : string) : Z :=
  if String.eqb a "Unknown" then 1
  else if String.eqb b "Unknown" then -1
  else match parseIntStr b, parseIntStr a with
       | Some x, Some y => x - y
       | _, _ => 0
       end.

Definition pivotTrJ4 (monthColumns : list string) (instName : string)
    (instRows : list Row) : list PivotRow * Totals :=
  let groupedData :=
    groupTwoLevels monthColumns (fun row => orUnknown (YOP row)) instRows in
  let instTotals :=
    foldl (fun instTotals yop =>
             addMetrics monthColumns (default [] (get groupedData yop)) instTotals)
          (zeroTotals monthColumns) (keys groupedData) in
  let sortedYops := sortBy compareYop (keys groupedData) in
  (pivotRow monthColumns instName 0 instTotals
     :: flat_map (fun yop =>
                    groupRows monthColumns yop (default [] (get groupedData yop)))
                 sortedYops,
   instTotals).

Definition pivotOther (monthColumns : list string) (instName : string)
    (instRows : list Row) : list PivotRow * Totals :=
  let groupedData := groupByMetric monthColumns instRows in
  let instTotals :=
    foldl (fun instTotals metricType =>
             match get groupedData metricType with
             | Some metricData => addTotals monthColumns instTotals metricData
             | None => instTotals
             end)
          (zeroTotals monthColumns) (keys groupedData) in
  (pivotRow monthColumns instName 0 instTotals
     :: metricRows monthColumns 1 groupedData,
   instTotals).

(** The body of the loop over the sorted institutions: the rows pushed for
    one institution and its totals. *)
Definition pivotInstitution (monthColumns : list string) (reportType : string)
    (instName : string) (instRows : list Row) : list PivotRow * Totals :=
  if String.eqb reportType "tr_j3" then pivotTrJ3 monthColumns instName instRows
  else if String.eqb reportType "tr_j4" then pivotTrJ4 monthColumns instName instRows
  else pivotOther monthColumns instName instRows.

Definition isValidRow (r : Row) : bool :=
  negb (String.eqb (Title r) "ERROR") && negb (String.eqb (Metric_Type r) "No Data").

Definition isErrorRow (r : Row) : bool :=
  String.eqb (Title r) "ERROR" || String.eqb (Metric_Type r) "No Data".

Definition groupByInstitution (validData : list Row) : obj (list Row) :=
  foldl (fun byInstitution row =>
           let instName := Institution_Name row in
           set byInstitution instName
               (default [] (get byInstitution instName) ++ [row]))
        [] validData.

(** The institution blocks and the grand totals after the main loop. *)
Definition pivotInstitutions (monthColumns : list string) (reportType : string)
    (validData : list Row) : list PivotRow * Totals :=
  let byInstitution := groupByInstitution validData in
  let sortedInstitutions := sort (keys byInstitution) in
  foldl (fun '(pivotRows, grandTotals) instName =>
           let instRows := default [] (get byInstitution instName) in
           let '(rows, instTotals) :=
             pivotInstitution monthColumns reportType instName instRows in
           (pivotRows ++ rows, addTotals monthColumns grandTotals instTotals))
        ([], zeroTotals monthColumns) sortedInstitutions.

(** The pivot body: every institution block, then the Grand Total row. *)
Definition pivotRowsOf (data : list Row) (requestData : RequestData) : list PivotRow :=
  let monthColumns := getMonthColumns (begin_date requestData) (end_date requestData) in
  let reportType := toLowerCase (report_type requestData) in
  let validData := List.filter isValidRow data in
  let '(pivotRows, grandTotals) := pivotInstitutions monthColumns reportType validData in
  pivotRows ++ [pivotRow monthColumns "Grand Total" 0 grandTotals].

Definition dquote : string := String (ascii_of_nat 34) "".
Definition newline : string := String (ascii_of_nat 10) "".

Definition quoted (s : string) : string := dquote +:+ s +:+ dquote.

Definition pivotLine (row : PivotRow) : string :=
  let indent := repeat "  " (level row) in
  join "," (quoted (indent +:+ label row)
              :: toString (row_total row) :: map toString (months row)).

Definition errorLines (errorData : list Row) : list string :=
  match errorData with
  | [] => []
  | _ :: _ =>
      "" :: quoted "--- Errors ---"
         :: map (fun row => quoted (Institution_ID row) +:+ "," +:+ quoted (Title row))
                errorData
  end.

(** The lines of the pivot output ([csvRows]). *)
Definition pivotLines (data : list Row) (requestData : RequestData) : list string :=
  let monthColumns := getMonthColumns (begin_date requestData) (end_date requestData) in
  let errorData := List.filter isErrorRow data in
  let headers := "" :: "Reporting_Period_Total" :: monthColumns in
  join "," (map quoted headers)
    :: map pivotLine (pivotRowsOf data requestData)
    ++ errorLines errorData.

Definition formatAsPivot (data : list Row) (requestData : RequestData) : string :=
  join newline (pivotLines data requestData).

(** ** Flat CSV Renderer *)

Definition baseColumns : list string :=
  ["Institution_Name"; "Institution_ID"; "Title"; "Publisher"; "Publisher_ID";
   "Platform"; "DOI"; "Proprietary_ID"; "Print_ISSN"; "Online_ISSN"; "URI"].

(** [String(row[h])], or [None] when the property is undefined. *)
Definition rowProperty (row : Row) (h : string) : option string :=
  if String.eqb h "Institution_Name" then Some (Institution_Name row)
  else if String.eqb h "Institution_ID" then Some (Institution_ID row)
  else if String.eqb h "Title" then Some (Title row)
  else if String.eqb h "Publisher" then Some (Publisher row)
  else if String.eqb h "Publisher_ID" then Some (Publisher_ID row)
  else if String.eqb h "Platform" then Some (Platform row)
  else if String.eqb h "DOI" then Some (DOI row)
  else if String.eqb h "Proprietary_ID" then Some (Proprietary_ID row)
  else if String.eqb h "Print_ISSN" then Some (Print_ISSN row)
  else if String.eqb h "Online_ISSN" then Some (Online_ISSN row)
  else if String.eqb h "URI" then Some (URI row)
  else if String.eqb h "YOP" then YOP row
  else if String.eqb h "Access_Type" then Access_Type row
  else if String.eqb h "Metric_Type" then Some (Metric_Type row)
  else if String.eqb h "Reporting_Period_Total"
       then Some (toString (Reporting_Period_Total row))
  else toString <$> (monthValues row !! h).

Definition convertToCSV (data : list Row) (requestData : RequestData) : string :=
  match data with
  | [] => ""
  | _ :: _ =>
      let columns :=
        baseColumns
          ++ (if isReportType requestData "tr_j4" then ["YOP"] else [])
          ++ (if isReportType requestData "tr_j3" then ["Access_Type"] else [])
          ++ ["Metric_Type"; "Reporting_Period_Total"] in
      let monthColumns :=
        getMonthColumns (begin_date requestData) (end_date requestData) in
      let headers := columns ++ monthColumns in
      let line (row : Row) :=
        join "," (map (fun h => match rowProperty row h with
                                | None => quoted ""
                                | Some v => quoted (doubleQuotes v)
                                end) headers) in
      join newline (join "," (map quoted headers) :: map line data)
  end.

(** ** The harvesting loop *)

(** Computations that may throw: [inl message] is an [Error] with that
    message. *)
Definition attempt (A : Type) : Type := (string + A)%type.

Definition throw {A} (message : string) : attempt A := inl message.

Definition bind {A B} (c : attempt A) (k : A -> attempt B) : attempt B :=
  match c with
  | inl message => inl message
  | inr a => k a
  end.

Notation "'let*' x := c 'in' k" := (bind c (fun x => k))
  (at level 10, x name, c at level 100, k at level 200).

(** What [fetch] settles to: the response with its status, and the
    outcome of reading its body as a JSON document of the shape of
    [JsonData].  The error of [json] is the error that the [try] block
    ends with when there is no such document: the error thrown by
    [response.json()] for a body that does not parse, or, for the body
    [null], the TypeError that the normaliser throws at its first
    property read. *)
Record Response := { ok : bool; status : Z; json : attempt JsonData }.

(** The TypeErrors of the first pass of the legacy branch over one
    performance block, in the order of its instances.  For a metric
    type that names a member of [Object.prototype],
    [metricData[metricType]] is the inherited member: the accumulator is
    not created, the member has no [monthlyValues], and the write
    [metricData[metricType].monthlyValues[monthKey] = count] throws.
    The message is that of V8 for a write to a property of [undefined]. *)
Definition faultsOfPerformance (performance : Performance) : list string :=
  match Period performance with
  | None => []
  | Some beginDate =>
      let monthKey := formatMonthKey beginDate in
      flat_map (fun instance =>
                  if isPrototypeKey (i_Metric_Type instance)
                  then ["Cannot set properties of undefined (setting '"
                          +:+ monthKey +:+ "')"]
                  else [])
               (Instances performance)
  end.

(** Whether [processApiResponse] throws on the payload, and the message
    of the error: the first TypeError of the legacy branch, taken over
    the items in order.  The branch of the current schema and the
    no-data branch write only to objects of their own and do not throw. *)
Definition processingError (jsonData : JsonData) (requestData : RequestData)
    : option string :=
  let reportItems := default [] (Report_Items jsonData) in
  if isVersion51 requestData reportItems then None
  else head (flat_map (fun item => flat_map faultsOfPerformance (it_Performance item))
                      reportItems).

(** The call of [processApiResponse] inside the [try] block: it throws,
    or it returns the value of [processApiResponse]. *)
Definition callProcessApiResponse (jsonData : JsonData) (requestData : RequestData)
    (account : Account) : attempt Processed :=
  match processingError jsonData requestData with
  | Some message => throw message
  | None => inr (processApiResponse jsonData requestData account)
  end.

(** The [try] block of one account. *)
Definition tryAccount (requestData : RequestData) (account : Account)
    (fetched : attempt Response) : attempt Processed :=
  let* response := fetched in
  if negb (ok response)
  then throw ("API returned " +:+ toString (status response))
  else
    let* jsonData := json response in
    callProcessApiResponse jsonData requestData account.

Record Harvest := { results : list Row; successful : Z; failed : Z }.

(** One iteration of the loop over the accounts. *)
Definition harvestAccount (requestData : RequestData) (st : Harvest)
    (account : Account) (fetched : attempt Response) : Harvest :=
  match tryAccount requestData account fetched with
  | inr processedData =>
      {| results := results st ++ processed_entries processedData;
         successful := if success processedData then successful st + 1
                       else successful st;
         failed := if success processedData then failed st else failed st + 1 |}
  | inl message =>
      {| results := results st ++ [createErrorEntry message requestData account];
         successful := successful st;
         failed := failed st + 1 |}
  end.

Record Outcome := {
  csv : string;
  out_successful : Z;
  out_failed : Z;
  out_total : Z
}.

(** The loop over the accounts, with the network as a function from
    accounts to what their fetch settles to. *)
Definition harvest (requestData : RequestData) (accounts : list Account)
    (fetch : Account -> attempt Response) : Harvest :=
  foldl (fun st account => harvestAccount requestData st account (fetch account))
        {| results := []; successful := 0; failed := 0 |} accounts.

Definition processAccounts (requestData : RequestData) (accounts : list Account)
    (fetch : Account -> attempt Response) : Outcome :=
  let st := harvest requestData accounts fetch in
  {| csv := if formatted requestData
            then formatAsPivot (results st) requestData
            else convertToCSV (results st) requestData;
     out_successful := successful st;
     out_failed := failed st;
     out_total := Z.of_nat (length accounts) |}.

(** ** Vocabulary of the statements

    *** Month ranges *)

(** Months counted from year 0, and the first day of the month so counted. *)
Definition monthIndex (d : date) : Z := 12 * getFullYear d + getMonth d.

Definition firstOfMonth (i : Z) : date :=
  {| getFullYear := i / 12; getMonth := i mod 12; getDate := 1 |}.

(** A calendar date as the request carries it. *)
Definition validDate (d : date) : Prop :=
  0 <= getMonth d < 12 /\ 1 <= getDate d <= 31.

(** The labels of [n] consecutive months starting at month index [i]. *)
Definition monthLabels (i : Z) (n : nat) : list string :=
  map (fun k => formatMonthKey (firstOfMonth (i + Z.of_nat k))) (seq 0 n).

(** The shape [Mon-YY]: a month abbreviation, a hyphen, two digits. *)
Definition isMonYY (s : string) : Prop :=
  exists m yy, 0 <= m < 12 /\ 0 <= yy < 100 /\
    s = monthAt m +:+ "-"
          +:+ String (digitChar (yy / 10)) (String (digitChar (yy mod 10)) "").

(** *** Rows and their month columns *)

(** The fixed properties of a row object and the fixed property of a
    totals object; the month columns are properties of the same objects. *)
Definition rowProperties : list string :=
  baseColumns ++ ["YOP"; "Access_Type"; "Metric_Type"; "Reporting_Period_Total"].

Definition totalsProperty : string := "total".

(** The month-column keys of a row are those of the run. *)
Definition hasMonthColumns (requestData : RequestData) (r : Row) : Prop :=
  dom (monthValues r)
  = list_to_set (getMonthColumns (begin_date requestData) (end_date requestData)).

(** Every month column of the run holds 0 in the row. *)
Definition allMonthsZero (requestData : RequestData) (r : Row) : Prop :=
  Forall (fun m => monthValues r !! m = Some 0)
         (getMonthColumns (begin_date requestData) (end_date requestData)).

(** A per-month object of the current schema has an entry for label [m]. *)
Definition populates51 (monthlyData : list (string * val)) (m : string) : Prop :=
  exists k c, In (k, c) monthlyData /\ convertApiMonthToDisplayMonth k = m.

(** A legacy item has, in a period whose begin date maps to label [m], an
    instance of the metric type. *)
Definition populatesLegacy (item : ReportItem) (metricType m : string) : Prop :=
  exists p d i,
    In p (it_Performance item) /\ Period p = Some d /\ formatMonthKey d = m
    /\ In i (Instances p) /\ i_Metric_Type i = metricType.

(** Every month key stored for a metric type comes from an instance of
    that type in a period with that label. *)
Definition keysJustified (P : string -> string -> Prop) (metricData : obj MetricAcc)
    : Prop :=
  forall mt data m v,
    In (mt, data) metricData -> monthlyValues data !! m = Some v -> P mt m.

(** *** The two passes of the legacy schema *)

(** What the first pass sees, in order: for each instance of each period
    of the item, its metric type, the month label of the period and its
    count. *)
Definition observations (item : ReportItem) : list (string * string * Z) :=
  flat_map (fun p =>
              match Period p with
              | Some d =>
                  map (fun i => (i_Metric_Type i, formatMonthKey d,
                                 parseIntOr0 (i_Count i)))
                      (Instances p)
              | None => []
              end)
           (it_Performance item).

Definition sumZ (l : list Z) : Z := fold_right Z.add 0 l.

Definition ofMetric (mt : string) (o : string * string * Z) : bool :=
  String.eqb (fst (fst o)) mt.

Definition ofMonth (mt l : string) (o : string * string * Z) : bool :=
  String.eqb (fst (fst o)) mt && String.eqb (snd (fst o)) l.

(** The counts of a metric type over all periods, and over the periods
    with month label [l]; the labels under which the type is observed. *)
Definition countsOf (obs : list (string * string * Z)) (mt : string) : list Z :=
  map snd (List.filter (ofMetric mt) obs).

Definition countsIn (obs : list (string * string * Z)) (mt l : string) : list Z :=
  map snd (List.filter (ofMonth mt l) obs).

Definition labelsOf (obs : list (string * string * Z)) (mt : string) : list string :=
  map (fun o => snd (fst o)) (List.filter (ofMetric mt) obs).

(** The first pass, one observation at a time. *)
Definition recordObservation (metricData : obj MetricAcc) (o : string * string * Z)
    : obj MetricAcc :=
  let '(metricType, monthKey, count) := o in
  let cur := default {| monthlyValues := ∅; total := 0 |}
                     (get metricData metricType) in
  set metricData metricType
      {| monthlyValues := <[monthKey := count]> (monthlyValues cur);
         total := total cur + count |}.

(** The month values that the first pass leaves for a metric type. *)
Definition storedMonths (obs : list (string * string * Z)) (mt : string)
    : gmap string Z :=
  foldl (fun m o => if ofMetric mt o then <[snd (fst o) := snd o]> m else m) ∅ obs.

(** *** The pivot *)

Definition isSome {A} (o : option A) : bool :=
  match o with Some _ => true | None => false end.

(** The level and label of each pivot row, in order. *)
Definition outline (rows : list PivotRow) : list (nat * string) :=
  map (fun r => (level r, label r)) rows.





Definition rowsOfInstitution (instName : string) (rows : list Row) : list Row :=
  List.filter (fun r => String.eqb (Institution_Name r) instName) rows.

(** The institutions of the valid rows, in the order of the pivot. *)
Definition sortedInstitutions (data : list Row) : list string :=
  sort (keys (groupByInstitution (List.filter isValidRow data))).



(** The sum of the totals of the rows of one nesting level. *)
Definition levelTotal (lvl : nat) (rows : list PivotRow) : Z :=
  sumZ (map row_total (List.filter (fun r => Nat.eqb (level r) lvl) rows)).


(** The largest integer up to which JavaScript numbers hold every
    integer exactly ([Number.MAX_SAFE_INTEGER], [2^53 - 1]). *)
Definition maxSafeInteger : Z := 9007199254740991.

(** The counts of the observations are exact in JavaScript: their
    absolute values add up to at most [maxSafeInteger], so every count,
    and every sum of some of the counts, is an integer that a JavaScript
    number holds exactly, and [parseInt] and [+=] compute it as the
    integers do. *)
Definition exactCounts (obs : list (string * string * Z)) : Prop :=
  sumZ (map (fun o => Z.abs (snd o)) obs) <= maxSafeInteger.

(** No metric type of the observations names a member of
    [Object.prototype]: every metric type is a key of the dictionary of
    the first pass in its own right. *)
Definition ownMetricTypes (obs : list (string * string * Z)) : Prop :=
  Forall (fun o => ~ In (fst (fst o)) prototypeKeys) obs.

(** ** Sample inputs *)

Definition sampleRequest (reportType : string) : RequestData :=
  {| format := "5";
     report_type := reportType;
     begin_date := mkDate 2024 0 1;
     end_date := mkDate 2024 2 31;
     formatted := true |}.

Definition sampleAccount : Account :=
  {| customer_id := "cust-001"; requestor_id := "req-001" |}.

Definition sampleHeader : ReportHeader :=
  {| h_Institution_Name := "Alpha Univ";
     h_Institution_ID := IdArr [{| Type_ := "Proprietary"; Value := "pnas:42" |}] |}.

Definition sampleItem (performances : list Performance) : ReportItem :=
  {| it_Title := "Proceedings";
     it_Publisher := "NAS";
     it_Publisher_ID := IdAbsent;
     it_Platform := "PNAS";
     it_Item_ID := IdAbsent;
     it_Access_Type := "Controlled";
     it_YOP := "";
     it_Year_of_Publication := "";
     it_Performance := performances;
     it_Attribute_Performance := None |}.

Definition requestsIn (beginDate : date) (count : Z) : Performance :=
  {| Period := Some beginDate;
     Instances := [{| i_Metric_Type := "Total_Item_Requests"; i_Count := Num count |}] |}.

(** A legacy item with two performance periods that both begin in
    January 2024. *)
Definition twoJanuaryPeriods : JsonData :=
  {| Report_Header := Some sampleHeader;
     Report_Items :=
       Some [sampleItem [requestsIn (mkDate 2024 0 1) 5;
                         requestsIn (mkDate 2024 0 15) 3]] |}.

Definition emptyReport : JsonData :=
  {| Report_Header := Some sampleHeader; Report_Items := Some [] |}.

(** A valid row as the normaliser builds it, with the given institution,
    access type, metric type and total, and no monthly breakdown. *)
Definition sampleRow (requestData : RequestData) (institution accessType metricType : string)
    (rowTotal : Z) : Row :=
  mkEntry requestData
    (getMonthColumns (begin_date requestData) (end_date requestData))
    institution "id" (extractItemData (sampleItem []))
    metricType rowTotal accessType "" ∅.

(** A legacy report of denied accesses: one item, five turnaways in
    January 2024. *)
Definition accessDeniedReport : JsonData :=
  {| Report_Header := Some sampleHeader;
     Report_Items :=
       Some [sampleItem
               [{| Period := Some (mkDate 2024 0 1);
                   Instances := [{| i_Metric_Type := "Limit_Exceeded";
                                    i_Count := Num 5 |}] |}]] |}.


(** A current-schema report: one item, one breakdown entry, requests in
    January and February 2024. *)
Definition currentSchemaReport : JsonData :=
  {| Report_Header := Some sampleHeader;
     Report_Items :=
       Some [{| it_Title := "Proceedings";
                it_Publisher := "NAS";
                it_Publisher_ID := IdAbsent;
                it_Platform := "PNAS";
                it_Item_ID := IdAbsent;
                it_Access_Type := "";
                it_YOP := "";
                it_Year_of_Publication := "";
                it_Performance := [];
                it_Attribute_Performance :=
                  Some [{| ap_Access_Type := "Controlled";
                           ap_YOP := "2020";
                           ap_Performance :=
                             [("Total_Item_Requests",
                               [("2024-01", Num 3); ("2024-02", Num 4)])] |}] |}] |}.


(** ** Summary Computer *)

(** [[...new Set(xs)]]: the distinct elements, in the order of their
    first occurrence. *)
Definition spreadSet (xs : list string) : list string :=
  foldl (fun seen x => if existsb (String.eqb x) seen then seen else seen ++ [x])
        [] xs.

(** The sum of the totals of the rows whose title is not the word ERROR. *)
Definition totalUsage (results : list Row) : Z :=
  foldl (fun sum r => sum + Reporting_Period_Total r) 0
        (List.filter (fun r => negb (String.eqb (Title r) "ERROR")) results).

Definition platforms (results : list Row) : list string :=
  spreadSet (List.filter (fun p => negb (String.eqb p "")) (map Platform results)).

Definition metricTypes (results : list Row) : list string :=
  spreadSet
    (List.filter (fun m => negb (String.eqb m "")
                           && negb (String.eqb m "ERROR")
                           && negb (String.eqb m "No Data"))
                 (map Metric_Type results)).

Record Summary := {
  summary_totalUsage : Z;
  summary_uniquePlatforms : nat;
  summary_metricTypes : list string
}.

Definition summarize (results : list Row) : Summary :=
  {| summary_totalUsage := totalUsage results;
     summary_uniquePlatforms := length (platforms results);
     summary_metricTypes := firstn 5 (metricTypes results) |}.

(** ** File name *)

(** [s.replace(/c/g, '')]. *)
Fixpoint removeChar (c : ascii) (s : string) : string :=
  match s with
  | EmptyString => EmptyString
  | String a s' => if Ascii.eqb a c then removeChar c s' else String a (removeChar c s')
  end.

(** [generateFilename]; [now] is what [new Date().toISOString()] returns
    at the time of the call. *)
Definition generateFilename (requestData : RequestData) (now : string) : string :=
  let version := if String.eqb (format requestData) "" then "5" else format requestData in
  let reportType := toLowerCase (report_type requestData) in
  let date := removeChar "-" (nth 0 (split "T" now) "") in
  "bulk_counter_" +:+ version +:+ "-" +:+ reportType +:+ "_" +:+ date.

(** The file name of the result object. *)
Definition resultFilename (requestData : RequestData) (now : string) : string :=
  generateFilename requestData now
    +:+ (if formatted requestData then "_formatted" else "").

(** ** Request URL *)

Definition hexDigit (n : N) : ascii :=
  ascii_of_N (if (n <? 10)%N then 48 + n else 55 + n).

(** A byte that the form serializer of [URLSearchParams] leaves as it is:
    an ASCII letter or digit, or one of [*], [-], [.], [_]. *)
Definition formSafe (c : ascii) : bool :=
  let n := N_of_ascii c in
  (((48 <=? n) && (n <=? 57)) || ((65 <=? n) && (n <=? 90))
   || ((97 <=? n) && (n <=? 122))
   || (n =? 42) || (n =? 45) || (n =? 46) || (n =? 95))%N.

(** The serialization of one name or value: a space becomes [+], a safe
    byte stays, any other byte becomes [%] and two upper-case hex digits. *)
Fixpoint formEncode (s : string) : string :=
  match s with
  | EmptyString => EmptyString
  | String c s' =>
      let n := N_of_ascii c in
      if (n =? 32)%N then String "+" (formEncode s')
      else if formSafe c then String c (formEncode s')
      else String "%" (String (hexDigit (n / 16)) (String (hexDigit (n mod 16))
                                                          (formEncode s')))
  end.

(** [new URLSearchParams(obj).toString()]. *)
Definition searchParams (params : list (string * string)) : string :=
  join "&" (map (fun '(name, value) => formEncode name +:+ "=" +:+ formEncode value)
                params).

(** [buildApiUrl]; [beginText] and [endText] are the request's
    [begin_date] and [end_date] as the strings they arrive as. *)
Definition buildApiUrl (requestData : RequestData) (account : Account)
    (beginText endText : string) : string :=
  let baseUrl :=
    if String.eqb (format requestData) "5.1"
    then "https://www.pnas.org/r51/reports"
    else "https://www.pnas.org/reports" in
  baseUrl +:+ "/" +:+ report_type requestData +:+ "?"
    +:+ searchParams [("requestor_id", requestor_id account);
                      ("customer_id", customer_id account);
                      ("begin_date", beginText);
                      ("end_date", endText)].

(** ** Cells of the flat CSV *)

(** The header of [convertToCSV]. *)
Definition csvHeaders (requestData : RequestData) : list string :=
  (baseColumns
     ++ (if isReportType requestData "tr_j4" then ["YOP"] else [])
     ++ (if isReportType requestData "tr_j3" then ["Access_Type"] else [])
     ++ ["Metric_Type"; "Reporting_Period_Total"])
    ++ getMonthColumns (begin_date requestData) (end_date requestData).

(** One cell: an undefined property prints as the empty quoted string,
    any other value quoted with its quotes doubled. *)
Definition csvCell (v : option string) : string :=
  match v with
  | None => quoted ""
  | Some v => quoted (doubleQuotes v)
  end.

Definition csvLine (headers : list string) (row : Row) : string :=
  join "," (map (fun h => csvCell (rowProperty row h)) headers).

(** ** Vocabulary of the further statements *)


(** The rows that one account contributes to the run. *)
Definition rowsOfAccount (requestData : RequestData) (account : Account)
    (fetched : attempt Response) : list Row :=
  match tryAccount requestData account fetched with
  | inr processedData => processed_entries processedData
  | inl message => [createErrorEntry message requestData account]
  end.

Definition threw {A} (c : attempt A) : bool :=
  match c with inl _ => true | inr _ => false end.

(** The value of the last, and of the first, entry of a type in an
    identifier list; empty when there is none. *)
Definition lastOfType (t : string) (l : list TypedEntry) : string :=
  default "" (Value <$> last (List.filter (fun id => String.eqb (Type_ id) t) l)).

Definition firstOfType (t : string) (l : list TypedEntry) : string :=
  default "" (Value <$> head (List.filter (fun id => String.eqb (Type_ id) t) l)).

(** The access-type property is present on the row exactly for tr_j3 and
    the year-of-publication property exactly for tr_j4. *)
Definition followsColumnPolicy (requestData : RequestData) (r : Row) : Prop :=
  (is_Some (Access_Type r) <-> toLowerCase (report_type requestData) = "tr_j3")
  /\ (is_Some (YOP r) <-> toLowerCase (report_type requestData) = "tr_j4").



(** Two decimal digits for a month number, as in the month keys
    [YYYY-MM] of the current schema. *)
Definition pad2 (m : Z) : string :=
  if m <? 10 then "0" +:+ toString m else toString m.

(** No byte of the string is the separator. *)
Definition lacks (sep : ascii) (s : string) : Prop :=
  Forall (fun c => c <> sep) (list_ascii_of_string s).

(** The order that a comparator asks for between an element [y] already
    placed and an element [x] placed after it. *)
Definition placed {A} (R : A -> A -> Prop) (cmp : A -> A -> Z) (x y : A) : Prop :=
  if 0 <? cmp y x then R x y else R y x.

(** The labels of the rows of one nesting level, in order. *)
Definition levelLabels (lvl : nat) (rows : list PivotRow) : list string :=
  map label (List.filter (fun r => Nat.eqb (level r) lvl) rows).













(** ** Reading the flat CSV back

    A reader of CSV text in which every field is quoted, after RFC 4180:
    fields are separated by commas and records by line feeds, a field
    stands between two quote characters, and a quote character inside a
    field is written twice.  The field being read is kept as the list of
    its bytes, last byte first. *)

Inductive readerState := FieldStart | InQuotes | QuoteSeen.

Definition isQuote (c : ascii) : bool := Ascii.eqb c (ascii_of_nat 34).

Definition endField (field : list ascii) (record : list string) : list string :=
  string_of_list_ascii (rev field) :: record.

Definition endRecord (field : list ascii) (record : list string)
    (records : list (list string)) : list (list string) :=
  rev (endField field record) :: records.

Fixpoint readCsv (st : readerState) (field : list ascii) (record : list string)
    (records : list (list string)) (s : string) : option (list (list string)) :=
  match s with
  | EmptyString =>
      match st with
      | QuoteSeen => Some (rev (endRecord field record records))
      | _ => None
      end
  | String c s' =>
      match st with
      | FieldStart =>
          if isQuote c then readCsv InQuotes [] record records s' else None
      | InQuotes =>
          if isQuote c then readCsv QuoteSeen field record records s'
          else readCsv InQuotes (c :: field) record records s'
      | QuoteSeen =>
          if isQuote c then readCsv InQuotes (c :: field) record records s'
          else if Ascii.eqb c "," then
            readCsv FieldStart [] (endField field record) records s'
          else if Ascii.eqb c (ascii_of_nat 10) then
            readCsv FieldStart [] [] (endRecord field record records) s'
          else None
      end
  end.

Definition readQuotedCsv (s : string) : option (list (list string)) :=
  readCsv FieldStart [] [] [] s.

(** The text of a cell: the value of the property, empty when the row
    does not have it. *)
Definition cellText (row : Row) (h : string) : string :=
  default "" (rowProperty row h).

(** ** Reading a serialized parameter back *)

Definition hexValue (c : ascii) : option N :=
  let n := N_of_ascii c in
  if ((48 <=? n) && (n <=? 57))%N then Some (n - 48)%N
  else if ((65 <=? n) && (n <=? 70))%N then Some (n - 55)%N
  else None.

(** The first byte that a serialization stands for, and what follows its
    serialization. *)
Definition decodeFirst (s : string) : option (ascii * string) :=
  match s with
  | EmptyString => None
  | String "+" r => Some (" "%char, r)
  | String "%" (String h (String l r)) =>
      match hexValue h, hexValue l with
      | Some a, Some b => Some (ascii_of_N (16 * a + b), r)
      | _, _ => None
      end
  | String c r => Some (c, r)
  end.

(** The number of occurrences of a byte in a string. *)
Fixpoint countChar (c : ascii) (s : string) : nat :=
  match s with
  | EmptyString => 0
  | String a s' => (if Ascii.eqb a c then 1 else 0) + countChar c s'
  end.

(** ** Pivot rows as sums of input rows *)





(** ** A run with a payload on which the normaliser throws *)

(** A legacy payload whose one instance has a metric type that names a
    member of [Object.prototype]. *)
Definition inheritedMetricReport : JsonData :=
  {| Report_Header := Some sampleHeader;
     Report_Items :=
       Some [sampleItem
               [{| Period := Some (mkDate 2024 0 1);
                   Instances := [{| i_Metric_Type := "toString";
                                    i_Count := Num 5 |}] |}]] |}.

Definition otherAccount : Account :=
  {| customer_id := "cust-002"; requestor_id := "req-002" |}.

(** The first account is answered with that payload, any other account
    with a report without items. *)
Definition sampleFetch (account : Account) : attempt Response :=
  if String.eqb (customer_id account) "cust-001"
  then inr {| ok := true; status := 200; json := inr inheritedMetricReport |}
  else inr {| ok := true; status := 200; json := inr emptyReport |}.

(** ** The order of the default sort *)

(** [a] does not come after [b] in the order of [sort]: the order of
    their UTF-16 code units. *)
Definition codeUnitsLe (a b : string) : Prop := compareStrings a b <= 0.

(** A string of ASCII characters only. *)
Definition isAscii (s : string) : Prop :=
  Forall (fun c => (N_of_ascii c < 128)%N) (list_ascii_of_string s).

(** ** Lists, sums and maps built by folds *)

Lemma Forall_flat_map {A B} (P : B -> Prop) (f : A -> list B) l :
  (forall x, Forall P (f x)) -> Forall P (flat_map f l).
Proof.
  intros H. induction l as [|x l IH]; simpl.
  - constructor.
  - apply Forall_app. split; [apply H | apply IH].
Qed.


Lemma filter_none {A} (f : A -> bool) l :
  Forall (fun x => f x = false) l -> List.filter f l = [].
Proof.
  induction 1 as [|x l Hx _ IH]; [reflexivity|]. simpl. now rewrite Hx.
Qed.

Lemma foldl_flat_map {A B C} (f : A -> C -> A) (g : B -> list C) l : forall a,
  foldl f a (flat_map g l) = foldl (fun a x => foldl f a (g x)) a l.
Proof.
  induction l as [|x l IH]; intros a; simpl; [reflexivity|].
  now rewrite foldl_app, IH.
Qed.

Lemma foldl_map {A B C} (f : A -> C -> A) (h : B -> C) l : forall a,
  foldl f a (map h l) = foldl (fun a x => f a (h x)) a l.
Proof. induction l as [|x l IH]; intros a; simpl; [reflexivity | apply IH]. Qed.

Lemma foldl_ext_eq {A B} (f g : A -> B -> A) l :
  (forall a x, f a x = g a x) -> forall a, foldl f a l = foldl g a l.
Proof.
  intros H. induction l as [|x l IH]; intros a; simpl; [reflexivity|].
  now rewrite H, IH.
Qed.

Lemma foldl_insert_lookup (f : string -> Z) (mc : list string) :
  forall (init : gmap string Z) (m : string),
  foldl (fun e k => <[k := f k]> e) init mc !! m
  = if decide (m ∈ mc) then Some (f m) else init !! m.
Proof.
  induction mc as [|x mc IH]; intros init m; cbn [foldl].
  - rewrite decide_False by apply not_elem_of_nil. reflexivity.
  - rewrite IH. destruct (decide (m ∈ mc)) as [Hin|Hnin].
    + rewrite decide_True by (apply elem_of_cons; now right). reflexivity.
    + destruct (decide (m = x)) as [->|Hne].
      * rewrite lookup_insert_eq, decide_True by (apply elem_of_cons; now left).
        reflexivity.
      * rewrite lookup_insert_ne by congruence.
        rewrite decide_False; [reflexivity|].
        intros H. apply elem_of_cons in H as [H|H]; contradiction.
Qed.

Lemma foldl_insert_dom (f : string -> Z) (mc : list string) :
  dom (foldl (fun e k => <[k := f k]> e) (∅ : gmap string Z) mc)
  = list_to_set mc.
Proof.
  apply set_eq. intros m.
  rewrite elem_of_dom, foldl_insert_lookup, elem_of_list_to_set.
  case_decide as H; split; intros H'; try assumption.
  - eexists; reflexivity.
  - rewrite lookup_empty in H'. destruct H' as [? H']. discriminate H'.
  - contradiction.
Qed.

Lemma sumZ_app a b : sumZ (a ++ b) = sumZ a + sumZ b.
Proof. unfold sumZ. induction a as [|x a IH]; simpl; lia. Qed.

Lemma sumZ_map_add {A} (f g : A -> Z) l :
  sumZ (map (fun x => f x + g x) l) = sumZ (map f l) + sumZ (map g l).
Proof. unfold sumZ. induction l as [|x l IH]; simpl; lia. Qed.

Lemma sumZ_map_zero {A} (l : list A) : sumZ (map (fun _ => 0) l) = 0.
Proof. unfold sumZ. induction l as [|x l IH]; simpl; lia. Qed.


Lemma sumZ_indicator (l0 : string) c mc :
  NoDup mc -> In l0 mc ->
  sumZ (map (fun l => if String.eqb l0 l then c else 0) mc) = c.
Proof.
  induction mc as [|l mc IH]; intros Hnd Hin; [destruct Hin|].
  apply NoDup_cons in Hnd as [Hl Hnd]. cbn [map sumZ fold_right].
  fold (sumZ (map (fun l => if String.eqb l0 l then c else 0) mc)).
  destruct (String.eqb l0 l) eqn:E.
  - apply String.eqb_eq in E. subst l0.
    assert (sumZ (map (fun l' => if String.eqb l l' then c else 0) mc) = 0) as ->;
      [|lia].
    transitivity (sumZ (map (fun _ : string => 0) mc)); [|apply sumZ_map_zero].
    f_equal. apply map_ext_in.
    intros l' Hl'. destruct (String.eqb l l') eqn:E'; [|reflexivity].
    apply String.eqb_eq in E'. subst l'. exfalso. apply Hl.
    now apply list_elem_of_In.
  - destruct Hin as [->|Hin]; [rewrite String.eqb_refl in E; discriminate|].
    rewrite IH by assumption. lia.
Qed.


(** ** Enumerated objects and sorting *)

Section Objects.

Context {V : Type}.
Implicit Types (o : obj V) (k : string) (v : V).

Lemma get_In o k v : get o k = Some v -> exists k', In (k', v) o /\ k' = k.
Proof.
  induction o as [|[k' v'] o IH]; simpl; [discriminate|].
  destruct (String.eqb k' k) eqn:E.
  - intros [= ->]. apply String.eqb_eq in E. exists k'. auto.
  - intros H. apply IH in H as (k'' & Hin & Hk). exists k''. auto.
Qed.

Lemma set_In o k v k' v' :
  In (k', v') (set o k v) -> (k' = k /\ v' = v) \/ In (k', v') o.
Proof.
  induction o as [|[k0 v0] o IH]; simpl.
  - intros [[= <- <-]|[]]. now left.
  - destruct (String.eqb k0 k) eqn:E; simpl.
    + apply String.eqb_eq in E. subst k0.
      intros [[= <- <-]|H]; auto.
    + intros [H|H]; auto. apply IH in H as [H|H]; auto.
Qed.

Lemma get_set_eq o k v : get (set o k v) k = Some v.
Proof.
  induction o as [|[k' v'] o IH]; simpl.
  - now rewrite String.eqb_refl.
  - destruct (String.eqb k' k) eqn:E; simpl; rewrite E; auto.
Qed.

Lemma get_set_ne o k k' v : k <> k' -> get (set o k v) k' = get o k'.
Proof.
  intros Hne. induction o as [|[k0 v0] o IH]; simpl.
  - destruct (String.eqb k k') eqn:E; [apply String.eqb_eq in E; contradiction|].
    reflexivity.
  - destruct (String.eqb k0 k) eqn:E; simpl.
    + apply String.eqb_eq in E. subst k0.
      destruct (String.eqb k k') eqn:E'; [apply String.eqb_eq in E'; contradiction|].
      reflexivity.
    + now rewrite IH.
Qed.

Lemma set_keys_NoDup o k v :
  NoDup (map fst o) -> NoDup (map fst (set o k v)).
Proof.
  induction o as [|[k' v'] o IH]; simpl; intros Hnd.
  - constructor; [apply not_elem_of_nil | constructor].
  - destruct (String.eqb k' k) eqn:E; simpl; [exact Hnd|].
    apply NoDup_cons in Hnd as [Hk' Hnd]. apply NoDup_cons. split; [|auto].
    intros Hin. apply Hk'. apply list_elem_of_In in Hin. apply list_elem_of_In.
    apply in_map_iff in Hin as ([k0 v0] & Hk0 & Hin). simpl in Hk0. subst k0.
    apply set_In in Hin as [[-> _]|Hin].
    + rewrite String.eqb_refl in E. discriminate.
    + apply in_map_iff. exists (k', v0). auto.
Qed.

Lemma In_get o k v :
  NoDup (map fst o) -> In (k, v) o -> get o k = Some v.
Proof.
  induction o as [|[k' v'] o IH]; simpl; intros Hnd Hin; [destruct Hin|].
  apply NoDup_cons in Hnd as [Hk' Hnd].
  destruct Hin as [[= -> ->]|Hin].
  - now rewrite String.eqb_refl.
  - destruct (String.eqb k' k) eqn:E; [|auto].
    apply String.eqb_eq in E. subst k'. exfalso. apply Hk'.
    apply list_elem_of_In, in_map_iff. exists (k, v). auto.
Qed.

Lemma insertIndexed_In n (e : string * V) l x :
  In x (insertIndexed n e l) -> x = (n, e) \/ In x l.
Proof.
  induction l as [|[m e'] l IH]; simpl.
  - intros [<-|[]]; auto.
  - destruct (n <? m); simpl.
    + intros [<-|H]; auto.
    + intros [<-|H]; auto. apply IH in H as [H|H]; auto.
Qed.

Lemma insertIndexed_In_conv n (e : string * V) l x :
  x = (n, e) \/ In x l -> In x (insertIndexed n e l).
Proof.
  induction l as [|[m e'] l IH]; simpl.
  - intros [->|[]]; auto.
  - destruct (n <? m); simpl; [intuition|].
    intros [->|[<-|H]]; auto.
Qed.

(** [Object.entries] only reorders the properties. *)
Lemma entries_In o e : In e (entries o) -> In e o.
Proof.
  unfold entries. intros H. apply in_app_or in H as [H|H].
  2:{ now apply filter_In in H as [H _]. }
  apply in_map_iff in H as ([n e'] & <- & H). simpl.
  set (step := fun acc e0 => _) in H.
  assert (forall l acc x, In x (foldl step acc l) ->
                          In x acc \/ In (snd x) l) as Hfold.
  { induction l as [|e0 l IH]; intros acc x Hx; simpl in *; [auto|].
    apply IH in Hx as [Hx|Hx]; [|auto].
    unfold step in Hx. destruct (indexKey (fst e0)); [|auto].
    apply insertIndexed_In in Hx as [->|Hx]; auto. }
  apply Hfold in H as [[]|H]. exact H.
Qed.

Lemma entries_In_conv o e : In e o -> In e (entries o).
Proof.
  unfold entries. intros H. apply in_or_app.
  destruct (indexKey (fst e)) as [n|] eqn:E.
  2:{ right. apply filter_In. split; [assumption|]. now rewrite E. }
  left. apply in_map_iff. exists (n, e). split; [reflexivity|].
  set (step := fun acc e0 => _).
  assert (forall l acc, In (n, e) acc \/ In e l -> In (n, e) (foldl step acc l))
    as Hfold.
  { induction l as [|e0 l IH]; intros acc [Hin|Hin]; simpl.
    - assumption.
    - destruct Hin.
    - apply IH. left. unfold step. destruct (indexKey (fst e0)); [|assumption].
      apply insertIndexed_In_conv. now right.
    - destruct Hin as [->|Hin]; [|apply IH; now right].
      apply IH. left. unfold step. rewrite E.
      apply insertIndexed_In_conv. now left. }
  apply Hfold. now right.
Qed.

Lemma keys_In o k : In k (keys o) -> exists v, In (k, v) o.
Proof.
  unfold keys. intros H. apply in_map_iff in H as ([k' v] & <- & H).
  exists v. now apply entries_In.
Qed.

End Objects.

Lemma insertBy_In {A} (cmp : A -> A -> Z) x l y :
  In y (insertBy cmp x l) <-> y = x \/ In y l.
Proof.
  induction l as [|z l IH]; simpl.
  - intuition.
  - destruct (0 <? cmp z x); simpl; [intuition|]. rewrite IH. intuition.
Qed.

Lemma sortBy_In {A} (cmp : A -> A -> Z) l y : In y (sortBy cmp l) <-> In y l.
Proof.
  unfold sortBy.
  assert (forall l acc, In y (foldl (fun acc x => insertBy cmp x acc) acc l)
                        <-> In y acc \/ In y l) as H.
  { clear l. induction l as [|x l IH]; intros acc; simpl; [intuition|].
    rewrite IH, insertBy_In. intuition. }
  rewrite H. simpl. intuition.
Qed.

Lemma insertBy_Permutation {A} (cmp : A -> A -> Z) x l :
  Permutation (insertBy cmp x l) (x :: l).
Proof.
  induction l as [|y l IH]; simpl; [reflexivity|].
  destruct (0 <? cmp y x); [reflexivity|].
  rewrite IH. apply perm_swap.
Qed.

Lemma sortBy_Permutation {A} (cmp : A -> A -> Z) l : Permutation (sortBy cmp l) l.
Proof.
  unfold sortBy.
  assert (forall l acc, Permutation (foldl (fun acc x => insertBy cmp x acc) acc l)
                                    (acc ++ l)) as H.
  { clear l. induction l as [|x l IH]; intros acc; simpl.
    - now rewrite app_nil_r.
    - rewrite IH, insertBy_Permutation. apply Permutation_middle. }
  apply (H l []).
Qed.
(** ** Month Range Deriver: proofs *)

Ltac zdiv := Z.div_mod_to_equations; lia.

Lemma firstOfMonth_monthIndex c :
  0 <= getMonth c < 12 -> getDate c = 1 -> firstOfMonth (monthIndex c) = c.
Proof.
  destruct c as [y m d]; unfold firstOfMonth, monthIndex; simpl.
  intros Hm ->. f_equal; zdiv.
Qed.

Lemma monthIndex_firstOfMonth i : monthIndex (firstOfMonth i) = i.
Proof. unfold firstOfMonth, monthIndex; simpl. zdiv. Qed.

Lemma setMonth_next c :
  0 <= getMonth c < 12 ->
  setMonth c (getMonth c + 1)
  = {| getFullYear := (monthIndex c + 1) / 12;
       getMonth := (monthIndex c + 1) mod 12;
       getDate := getDate c |}.
Proof.
  destruct c as [y m d]; unfold setMonth, monthIndex; simpl.
  intros Hm. f_equal; zdiv.
Qed.

(** The [while] loop ends within the bound that [getMonthColumns] gives
    it, for any two dates. *)
Lemma monthLoop_terminates fuel : forall acc c e,
  0 <= getMonth c < 12 ->
  (Z.to_nat (12 * (getFullYear e + 1) - monthIndex c) < fuel)%nat ->
  exists l, monthLoop fuel acc c e = Some l.
Proof.
  induction fuel as [|fuel IH]; intros acc c e Hm Hfuel; [lia|]. simpl.
  destruct (date_leb c e) eqn:Hle; [|eauto].
  assert (getFullYear c <= getFullYear e) as Hy.
  { unfold date_leb in Hle.
    apply orb_true_iff in Hle as [Hle|Hle].
    - apply Z.ltb_lt in Hle. lia.
    - apply andb_true_iff in Hle as [Hle _]. apply Z.eqb_eq in Hle. lia. }
  apply IH.
  - unfold setMonth; simpl. zdiv.
  - rewrite setMonth_next by assumption.
    unfold monthIndex in *. simpl. zdiv.
Qed.

Lemma getMonthColumns_total b e :
  exists l,
    monthLoop (monthLoopBound (Date_ymd (getFullYear b) (getMonth b) 1) e) []
      (Date_ymd (getFullYear b) (getMonth b) 1) e = Some l
    /\ getMonthColumns b e = l.
Proof.
  set (c := Date_ymd (getFullYear b) (getMonth b) 1).
  destruct (monthLoop_terminates (monthLoopBound c e) [] c e) as [l Hl].
  - unfold c; simpl. zdiv.
  - unfold monthLoopBound, monthIndex.
    assert (0 <= getMonth c < 12) by (unfold c; simpl; zdiv). lia.
  - exists l. split; [exact Hl|]. unfold getMonthColumns. fold c. now rewrite Hl.
Qed.

Lemma date_leb_first c e :
  0 <= getMonth c < 12 -> getDate c = 1 -> validDate e ->
  date_leb c e = true <-> monthIndex c <= monthIndex e.
Proof.
  destruct c as [y m d], e as [y' m' d']; unfold date_leb, validDate, monthIndex.
  simpl. intros Hm -> [Hm' Hd'].
  rewrite !orb_true_iff, !andb_true_iff, !orb_true_iff, !andb_true_iff.
  rewrite !Z.ltb_lt, !Z.eqb_eq, Z.leb_le. lia.
Qed.

Lemma monthLoop_spec n : forall fuel acc c e,
  0 <= getMonth c < 12 -> getDate c = 1 -> validDate e ->
  n = Z.to_nat (monthIndex e - monthIndex c + 1) ->
  (n < fuel)%nat ->
  monthLoop fuel acc c e = Some (acc ++ monthLabels (monthIndex c) n).
Proof.
  induction n as [|n IH]; intros fuel acc c e Hm Hd He Hn Hfuel;
    (destruct fuel as [|fuel]; [lia|]); simpl.
  - destruct (date_leb c e) eqn:Hle.
    + apply date_leb_first in Hle; auto. lia.
    + unfold monthLabels; simpl. now rewrite app_nil_r.
  - destruct (date_leb c e) eqn:Hle.
    2:{ assert (~ monthIndex c <= monthIndex e) as Hgt.
        { intros H. apply date_leb_first in H; auto. congruence. }
        lia. }
    rewrite setMonth_next by assumption.
    set (c' := {| getFullYear := _; getMonth := _; getDate := _ |}).
    assert (monthIndex c' = monthIndex c + 1) as Hidx
      by (unfold c', monthIndex; simpl; zdiv).
    rewrite (IH fuel (acc ++ [formatMonthKey c]) c' e); try assumption.
    + rewrite Hidx. unfold monthLabels. rewrite <- app_assoc. simpl.
      rewrite Z.add_0_r, firstOfMonth_monthIndex by assumption.
      do 3 f_equal. rewrite <- seq_shift, map_map.
      apply map_ext. intros k. do 2 f_equal. lia.
    + unfold c'; simpl. zdiv.
    + lia.
    + lia.
Qed.

(** With a begin year that [new Date(y, m, 1)] takes literally, the
    deriver lists the months from begin's to end's. *)
Lemma getMonthColumns_range b e :
  validDate b -> validDate e -> 100 <= getFullYear b ->
  getMonthColumns b e
  = monthLabels (monthIndex b) (Z.to_nat (monthIndex e - monthIndex b + 1)).
Proof.
  intros [Hb _] He Hy. unfold getMonthColumns, Date_ymd.
  replace ((0 <=? getFullYear b) && (getFullYear b <=? 99)) with false
    by (symmetry; apply andb_false_iff; right; apply Z.leb_gt; lia).
  replace (getFullYear b + getMonth b / 12) with (getFullYear b) by zdiv.
  replace (getMonth b mod 12) with (getMonth b) by zdiv.
  set (c := {| getFullYear := _; getMonth := _; getDate := _ |}).
  assert (monthIndex c = monthIndex b) as Hidx by reflexivity.
  rewrite (monthLoop_spec (Z.to_nat (monthIndex e - monthIndex b + 1))
             _ [] c e); auto.
  unfold monthLoopBound. destruct He as [He _].
  unfold monthIndex in *. simpl. lia.
Qed.

(** Whatever the begin year, nothing is listed when begin's month is
    after end's. *)
Lemma getMonthColumns_after b e :
  validDate b -> validDate e -> monthIndex e < monthIndex b ->
  getMonthColumns b e = [].
Proof.
  intros [Hb _] He Hlt. unfold getMonthColumns.
  set (c := Date_ymd _ _ _).
  assert (0 <= getMonth c < 12) as Hm by (unfold c; simpl; zdiv).
  assert (monthIndex b <= monthIndex c) as Hge.
  { unfold c, Date_ymd, monthIndex; simpl.
    destruct ((0 <=? getFullYear b) && (getFullYear b <=? 99)) eqn:E.
    - apply andb_true_iff in E as [E1 E2].
      apply Z.leb_le in E1, E2. zdiv.
    - zdiv. }
  unfold monthLoopBound. simpl.
  destruct (date_leb c e) eqn:Hle; [|reflexivity].
  apply date_leb_first in Hle; auto. lia.
Qed.

Lemma digitsRev_two k y :
  100 <= y ->
  exists rest,
    digitsRev (S (S k)) y
    = digitChar (y mod 10) :: digitChar ((y / 10) mod 10) :: rest.
Proof.
  intros Hy. simpl.
  destruct (y / 10 =? 0) eqn:E; [apply Z.eqb_eq in E; zdiv|].
  eexists. reflexivity.
Qed.

Lemma slice_year y :
  100 <= y ->
  slice_neg 2 (toString y)
  = String (digitChar ((y / 10) mod 10)) (String (digitChar (y mod 10)) "").
Proof.
  intros Hy. unfold toString, natToString.
  destruct (y <? 0) eqn:E; [apply Z.ltb_lt in E; lia|].
  assert (2 <= Z.log2 y) as Hlog
    by (apply Z.log2_le_pow2; simpl; lia).
  destruct (Z.to_nat (Z.log2 y)) as [|k] eqn:Ek; [lia|].
  destruct (digitsRev_two k y Hy) as [rest ->].
  unfold slice_neg. rewrite list_ascii_of_string_of_list_ascii.
  simpl rev. rewrite <- !app_assoc. simpl.
  rewrite !length_app. simpl.
  replace (length (rev rest) + 2 - 2)%nat with (length (rev rest) + 0)%nat by lia.
  rewrite skipn_app, skipn_all2 by lia.
  replace (length (rev rest) + 0 - length (rev rest))%nat with 0%nat by lia.
  reflexivity.
Qed.

Lemma formatMonthKey_form i :
  1200 <= i ->
  formatMonthKey (firstOfMonth i)
  = monthAt (i mod 12) +:+ "-"
      +:+ String (digitChar (((i / 12) mod 100) / 10))
            (String (digitChar (((i / 12) mod 100) mod 10)) "").
Proof.
  intros Hi. unfold formatMonthKey, firstOfMonth; simpl.
  rewrite slice_year by zdiv.
  do 3 f_equal; [f_equal; zdiv|]. do 2 f_equal. zdiv.
Qed.

Lemma formatMonthKey_isMonYY i : 1200 <= i -> isMonYY (formatMonthKey (firstOfMonth i)).
Proof.
  intros Hi. exists (i mod 12), ((i / 12) mod 100).
  split; [zdiv|]. split; [zdiv|]. now apply formatMonthKey_form.
Qed.

Lemma digitChar_inj a b :
  0 <= a < 10 -> 0 <= b < 10 -> digitChar a = digitChar b -> a = b.
Proof.
  intros Ha Hb H. unfold digitChar in H.
  apply (f_equal nat_of_ascii) in H.
  rewrite !nat_ascii_embedding in H by lia. lia.
Qed.

Lemma month_cases m :
  0 <= m < 12 ->
  m = 0 \/ m = 1 \/ m = 2 \/ m = 3 \/ m = 4 \/ m = 5 \/ m = 6 \/ m = 7
  \/ m = 8 \/ m = 9 \/ m = 10 \/ m = 11.
Proof. lia. Qed.

Lemma monthAt_inj m1 m2 s1 s2 :
  0 <= m1 < 12 -> 0 <= m2 < 12 ->
  monthAt m1 +:+ "-" +:+ s1 = monthAt m2 +:+ "-" +:+ s2 ->
  m1 = m2 /\ s1 = s2.
Proof.
  intros H1 H2.
  apply month_cases in H1; apply month_cases in H2.
  intros H.
  repeat (destruct H1 as [-> | H1]); try subst m1;
    repeat (destruct H2 as [-> | H2]); try subst m2;
    cbv in H; first [discriminate H | (split; [reflexivity | congruence])].
Qed.

Lemma formatMonthKey_inj i j :
  1200 <= i -> 1200 <= j -> Z.abs (i - j) < 1200 ->
  formatMonthKey (firstOfMonth i) = formatMonthKey (firstOfMonth j) -> i = j.
Proof.
  intros Hi Hj Hd H.
  rewrite !formatMonthKey_form in H by assumption.
  apply monthAt_inj in H as [Hm Hs]; [|zdiv|zdiv].
  injection Hs as H1 H2.
  apply digitChar_inj in H1; [|zdiv|zdiv].
  apply digitChar_inj in H2; [|zdiv|zdiv].
  zdiv.
Qed.

Lemma monthLabels_NoDup i n :
  1200 <= i -> (n <= 1200)%nat -> NoDup (monthLabels i n).
Proof.
  intros Hi Hn. unfold monthLabels.
  apply (NoDup_fmap_2_strong
           (fun k => formatMonthKey (firstOfMonth (i + Z.of_nat k)))).
  - intros x y Hx Hy H.
    apply list_elem_of_In, in_seq in Hx. apply list_elem_of_In, in_seq in Hy.
    apply formatMonthKey_inj in H; lia.
  - apply NoDup_ListNoDup, seq_NoDup.
Qed.

Lemma monthLabels_length i n : length (monthLabels i n) = n.
Proof. unfold monthLabels. now rewrite length_map, length_seq. Qed.

Lemma monthLabels_lookup i n (k : nat) :
  (k < n)%nat ->
  monthLabels i n !! k = Some (formatMonthKey (firstOfMonth (i + Z.of_nat k))).
Proof.
  intros Hk. unfold monthLabels.
  change (map ?f ?l) with (f <$> l).
  rewrite list_lookup_fmap, lookup_seq_lt by assumption. reflexivity.
Qed.

Lemma date_leb_monthIndex b e :
  validDate b -> validDate e -> date_leb b e = true -> monthIndex b <= monthIndex e.
Proof.
  destruct b as [y m d], e as [y' m' d']; unfold date_leb, validDate, monthIndex.
  simpl. intros [Hm Hd] [Hm' Hd'].
  rewrite !orb_true_iff, !andb_true_iff, !orb_true_iff, !andb_true_iff.
  rewrite !Z.ltb_lt, !Z.eqb_eq, Z.leb_le. lia.
Qed.

Example getMonthColumns_q1 :
  getMonthColumns (mkDate 2024 10 15) (mkDate 2025 1 3)
  = ["Nov-24"; "Dec-24"; "Jan-25"; "Feb-25"].
Proof. reflexivity. Qed.

(** C4 (as amended).  For begin and end dates with begin <= end and a
    begin year of at least 100, [getMonthColumns] returns the labels of
    the months from begin's to end's inclusive, in chronological order;
    their number is (Y_e*12+M_e)-(Y_b*12+M_b)+1; each has the shape
    Mon-YY; and they are pairwise distinct whenever the range covers at
    most 1200 months. *)
Theorem getMonthColumns_chronological b e :
  validDate b -> validDate e -> 100 <= getFullYear b -> date_leb b e = true ->
  getMonthColumns b e
  = monthLabels (monthIndex b) (Z.to_nat (monthIndex e - monthIndex b + 1))
  /\ Z.of_nat (length (getMonthColumns b e))
     = (getFullYear e * 12 + getMonth e) - (getFullYear b * 12 + getMonth b) + 1
  /\ Forall isMonYY (getMonthColumns b e)
  /\ (monthIndex e - monthIndex b < 1200 -> NoDup (getMonthColumns b e)).
Proof.
  intros Hb He Hy Hle.
  pose proof (date_leb_monthIndex b e Hb He Hle) as Hidx.
  rewrite (getMonthColumns_range b e Hb He Hy).
  assert (1200 <= monthIndex b) as Hlow
    by (destruct Hb as [Hb _]; unfold monthIndex; lia).
  repeat split.
  - rewrite monthLabels_length. unfold monthIndex in *. lia.
  - unfold monthLabels. apply Forall_forall. intros s Hs.
    apply list_elem_of_In, in_map_iff in Hs as (k & <- & _).
    apply formatMonthKey_isMonYY. lia.
  - intros Hspan. apply monthLabels_NoDup; lia.
Qed.

Lemma getMonthColumns_chronological_witness :
  getMonthColumns (mkDate 2024 10 15) (mkDate 2025 1 3)
  = ["Nov-24"; "Dec-24"; "Jan-25"; "Feb-25"]
  /\ Z.of_nat (length (getMonthColumns (mkDate 2024 10 15) (mkDate 2025 1 3)))
     = (2025 * 12 + 1) - (2024 * 12 + 10) + 1
  /\ Forall isMonYY (getMonthColumns (mkDate 2024 10 15) (mkDate 2025 1 3))
  /\ NoDup (getMonthColumns (mkDate 2024 10 15) (mkDate 2025 1 3)).
Proof.
  destruct (getMonthColumns_chronological (mkDate 2024 10 15) (mkDate 2025 1 3))
    as (H1 & H2 & H3 & H4).
  - unfold validDate; simpl; lia.
  - unfold validDate; simpl; lia.
  - simpl; lia.
  - reflexivity.
  - split; [exact H1 | split; [exact H2 | split; [exact H3 |]]].
    apply H4. vm_compute. reflexivity.
Defined.

(** C4, counterexample.  From January 1924 to January 2024 begin <= end,
    yet the first and the last label are both Jan-24; and from January to
    March of the year 50 nothing is listed, because [new Date(50, 0, 1)]
    is a day of 1950. *)
Lemma getMonthColumns_century_duplicate :
  validDate (mkDate 1924 0 1) /\ validDate (mkDate 2024 0 31)
  /\ date_leb (mkDate 1924 0 1) (mkDate 2024 0 31) = true
  /\ ~ NoDup (getMonthColumns (mkDate 1924 0 1) (mkDate 2024 0 31))
  /\ date_leb (mkDate 50 0 1) (mkDate 50 2 1) = true
  /\ getMonthColumns (mkDate 50 0 1) (mkDate 50 2 1) = [].
Proof.
  assert (validDate (mkDate 1924 0 1)) as Hb by (unfold validDate; simpl; lia).
  assert (validDate (mkDate 2024 0 31)) as He by (unfold validDate; simpl; lia).
  split; [exact Hb|]. split; [exact He|]. split; [reflexivity|].
  split; [|split; reflexivity].
  rewrite (getMonthColumns_range _ _ Hb He) by (simpl; lia).
  intros Hnd.
  assert (0 = 1200)%nat as Habs; [|discriminate Habs].
  apply (NoDup_lookup _ 0%nat 1200%nat "Jan-24" Hnd).
  - rewrite monthLabels_lookup by (vm_compute; lia). reflexivity.
  - rewrite monthLabels_lookup by (vm_compute; lia). reflexivity.
Qed.

(** C8 (as amended).  When begin's calendar month is after end's,
    [getMonthColumns] returns the empty sequence; when begin and end lie
    in the same calendar month it returns that month's label, whatever
    the order of the two days. *)
Theorem getMonthColumns_begin_after_end b e :
  validDate b -> validDate e ->
  (monthIndex e < monthIndex b -> getMonthColumns b e = [])
  /\ (100 <= getFullYear b -> monthIndex b = monthIndex e ->
      getMonthColumns b e = [formatMonthKey (firstOfMonth (monthIndex b))]).
Proof.
  intros Hb He. split.
  - now apply getMonthColumns_after.
  - intros Hy Heq. rewrite (getMonthColumns_range b e Hb He Hy).
    replace (monthIndex e - monthIndex b + 1) with 1 by lia.
    unfold monthLabels; simpl. now rewrite Z.add_0_r.
Qed.

Lemma getMonthColumns_begin_after_end_witness :
  getMonthColumns (mkDate 2024 2 20) (mkDate 2024 0 10) = []
  /\ getMonthColumns (mkDate 2024 0 20) (mkDate 2024 0 10)
     = [formatMonthKey (firstOfMonth (monthIndex (mkDate 2024 0 20)))].
Proof.
  split.
  - apply (getMonthColumns_begin_after_end (mkDate 2024 2 20) (mkDate 2024 0 10)).
    + unfold validDate; simpl; lia.
    + unfold validDate; simpl; lia.
    + vm_compute. reflexivity.
  - apply (getMonthColumns_begin_after_end (mkDate 2024 0 20) (mkDate 2024 0 10)).
    + unfold validDate; simpl; lia.
    + unfold validDate; simpl; lia.
    + simpl; lia.
    + reflexivity.
Defined.

(** C8, counterexample.  20 January 2024 is strictly after 10 January
    2024, and the deriver still returns one label. *)
Lemma getMonthColumns_same_month_not_empty :
  date_leb (mkDate 2024 0 20) (mkDate 2024 0 10) = false
  /\ getMonthColumns (mkDate 2024 0 20) (mkDate 2024 0 10) = ["Jan-24"]
  /\ getMonthColumns (mkDate 2024 0 20) (mkDate 2024 0 10) <> [].
Proof. repeat split; discriminate. Qed.

(** *** Month labels and the fixed properties

    A row object holds its month columns next to its fixed properties,
    and a totals object next to [total]; the embedding keeps them apart.
    No month label is the name of a fixed property, so no write of a
    month column touches one. *)

Lemma monthAt_cases i : monthAt i = "undefined" \/ In (monthAt i) monthNames.
Proof.
  unfold monthAt. destruct (i <? 0); [now left|].
  generalize (Z.to_nat i). intros n.
  do 12 (destruct n as [|n]; [right; simpl; tauto|]).
  left. simpl. destruct n; reflexivity.
Qed.

Lemma formatMonthKey_not_property d :
  ~ In (formatMonthKey d) rowProperties /\ formatMonthKey d <> totalsProperty.
Proof.
  unfold formatMonthKey.
  generalize (slice_neg 2 (toString (getFullYear d))). intros y.
  destruct (monthAt_cases (getMonth d)) as [-> | H].
  - split; [intros H; simpl in H; intuition discriminate | discriminate].
  - simpl in H.
    repeat (destruct H as [<- | H];
            [split; [intros H'; simpl in H'; intuition discriminate | discriminate]|]).
    destruct H.
Qed.

Lemma monthLoop_labels fuel : forall acc c e l,
  monthLoop fuel acc c e = Some l ->
  Forall (fun s => exists d, s = formatMonthKey d) acc ->
  Forall (fun s => exists d, s = formatMonthKey d) l.
Proof.
  induction fuel as [|fuel IH]; intros acc c e l; simpl; [discriminate|].
  destruct (date_leb c e).
  - intros H Hacc. apply (IH _ _ _ _ H).
    apply Forall_app. split; [assumption|]. repeat constructor. eauto.
  - intros [= <-]. auto.
Qed.

Lemma getMonthColumns_not_properties b e :
  Forall (fun m => ~ In m rowProperties /\ m <> totalsProperty) (getMonthColumns b e).
Proof.
  destruct (getMonthColumns_total b e) as (l & Hloop & ->).
  apply monthLoop_labels in Hloop; [|constructor].
  eapply Forall_impl; [exact Hloop|]. simpl.
  intros m [d ->]. apply formatMonthKey_not_property.
Qed.

(** ** Row Normalizer: proofs *)

Lemma addMonthlyData_lookup mc values m :
  In m mc -> addMonthlyData mc values !! m = Some (default 0 (values !! m)).
Proof.
  intros Hin. unfold addMonthlyData.
  rewrite (foldl_insert_lookup (fun k => default 0 (values !! k))).
  case_decide as H; [reflexivity|].
  exfalso. apply H. now apply list_elem_of_In.
Qed.

Lemma mkEntry_hasMonthColumns requestData n i b mt t a y values :
  hasMonthColumns requestData
    (mkEntry requestData
       (getMonthColumns (begin_date requestData) (end_date requestData))
       n i b mt t a y values).
Proof.
  unfold hasMonthColumns, mkEntry, addMonthlyData; simpl.
  apply (foldl_insert_dom (fun k => default 0 (values !! k))).
Qed.

Lemma placeholder_hasMonthColumns requestData n i t mt :
  hasMonthColumns requestData
    (placeholder requestData
       (getMonthColumns (begin_date requestData) (end_date requestData)) n i t mt).
Proof.
  unfold hasMonthColumns, placeholder; simpl.
  apply (foldl_insert_dom (fun _ => 0)).
Qed.

Lemma placeholder_allMonthsZero requestData n i t mt :
  allMonthsZero requestData
    (placeholder requestData
       (getMonthColumns (begin_date requestData) (end_date requestData)) n i t mt).
Proof.
  unfold allMonthsZero, placeholder; simpl.
  apply Forall_forall. intros m Hm.
  rewrite (foldl_insert_lookup (fun _ => 0)).
  case_decide as H; [reflexivity | contradiction].
Qed.

Lemma rows51_hasMonthColumns requestData n i item :
  Forall (hasMonthColumns requestData)
    (rows51 requestData
       (getMonthColumns (begin_date requestData) (end_date requestData)) n i item).
Proof.
  apply Forall_forall. intros r Hr. apply list_elem_of_In in Hr.
  unfold rows51 in Hr. apply in_flat_map in Hr as (ap & _ & Hr).
  apply in_map_iff in Hr as ([mt md] & <- & _).
  unfold entry51. destruct (collectMonthly md).
  apply mkEntry_hasMonthColumns.
Qed.

Lemma rowsLegacy_hasMonthColumns requestData n i item :
  Forall (hasMonthColumns requestData)
    (rowsLegacy requestData
       (getMonthColumns (begin_date requestData) (end_date requestData)) n i item).
Proof.
  apply Forall_forall. intros r Hr. apply list_elem_of_In in Hr.
  unfold rowsLegacy in Hr.
  apply in_map_iff in Hr as ([mt data] & <- & _).
  apply mkEntry_hasMonthColumns.
Qed.

Lemma processApiResponse_hasMonthColumns jsonData requestData account :
  Forall (hasMonthColumns requestData)
    (processed_entries (processApiResponse jsonData requestData account)).
Proof.
  unfold processApiResponse.
  destruct (default [] (Report_Items jsonData)) as [|item items] eqn:E.
  - simpl. constructor; [|constructor]. apply placeholder_hasMonthColumns.
  - cbv zeta. cbn [processed_entries].
    apply Forall_flat_map. intros x.
    destruct (isVersion51 requestData (item :: items)).
    + apply rows51_hasMonthColumns.
    + apply rowsLegacy_hasMonthColumns.
Qed.

Lemma harvestAccount_hasMonthColumns requestData st account fetched :
  Forall (hasMonthColumns requestData) (results st) ->
  Forall (hasMonthColumns requestData)
    (results (harvestAccount requestData st account fetched)).
Proof.
  intros Hst. unfold harvestAccount.
  destruct (tryAccount requestData account fetched) as [message|processed] eqn:E;
    simpl; apply Forall_app; split; try assumption.
  - constructor; [|constructor]. apply placeholder_hasMonthColumns.
  - unfold tryAccount, bind, throw in E.
    destruct fetched as [|response]; [discriminate|].
    destruct (negb (ok response)); [discriminate|].
    destruct (json response) as [|jsonData]; [discriminate|].
    unfold callProcessApiResponse in E.
    destruct (processingError jsonData requestData); [discriminate|].
    injection E as <-. apply processApiResponse_hasMonthColumns.
Qed.

Lemma harvest_hasMonthColumns requestData accounts fetch :
  Forall (hasMonthColumns requestData) (results (harvest requestData accounts fetch)).
Proof.
  unfold harvest.
  set (init := {| results := []; successful := 0; failed := 0 |}).
  assert (Forall (hasMonthColumns requestData) (results init)) as Hinit
    by constructor.
  clearbody init. revert init Hinit.
  induction accounts as [|a accounts IH]; intros init Hinit; simpl.
  - assumption.
  - apply IH. now apply harvestAccount_hasMonthColumns.
Qed.

(** *** Months that a report does not populate *)

Lemma collectMonthly_populated monthlyData m v :
  fst (collectMonthly monthlyData) !! m = Some v -> populates51 monthlyData m.
Proof.
  unfold collectMonthly, populates51.
  set (step := fun '(monthlyValues, total) '(month, count) => _).
  assert (forall l (init : gmap string Z * Z),
             fst (foldl step init l) !! m = Some v ->
             (exists k c, In (k, c) l /\ convertApiMonthToDisplayMonth k = m)
             \/ fst init !! m = Some v) as H.
  { induction l as [|[k c] l IH]; intros [mv t] Hl; simpl in *.
    - now right.
    - apply IH in Hl as [(k' & c' & Hin & Hk)|Hl].
      + left. exists k', c'. auto.
      + simpl in Hl.
        destruct (decide (convertApiMonthToDisplayMonth k = m)) as [Hk|Hk].
        * left. exists k, c. auto.
        * right. now rewrite lookup_insert_ne in Hl. }
  intros Hm. apply H in Hm as [Hm|Hm]; [assumption|].
  simpl in Hm. rewrite lookup_empty in Hm. discriminate.
Qed.

Lemma entry51_unpopulated requestData mc n i b attrPerf metricType monthlyData m :
  In m mc -> ~ populates51 monthlyData m ->
  monthValues (entry51 requestData mc n i b attrPerf (metricType, monthlyData)) !! m
  = Some 0.
Proof.
  intros Hin Hnot. unfold entry51.
  destruct (collectMonthly monthlyData) as [mv t] eqn:E.
  unfold mkEntry; simpl. rewrite addMonthlyData_lookup by assumption.
  destruct (mv !! m) as [v|] eqn:Hv; [|reflexivity].
  exfalso. apply Hnot. apply (collectMonthly_populated _ _ v).
  now rewrite E.
Qed.

Lemma recordInstance_justified P monthKey metricData instance :
  keysJustified P metricData -> P (i_Metric_Type instance) monthKey ->
  keysJustified P (recordInstance monthKey metricData instance).
Proof.
  intros Hinv HP mt data m v Hin Hm. unfold recordInstance in Hin.
  apply set_In in Hin as [[-> ->]|Hin]; [|eauto].
  simpl in Hm. destruct (decide (monthKey = m)) as [<-|Hne]; [assumption|].
  rewrite lookup_insert_ne in Hm by assumption.
  destruct (get metricData (i_Metric_Type instance)) as [cur|] eqn:E; simpl in Hm.
  - apply get_In in E as (k' & Hin & ->). eauto.
  - rewrite lookup_empty in Hm. discriminate.
Qed.

Lemma recordPerformance_justified P metricData performance :
  keysJustified P metricData ->
  (forall d i, Period performance = Some d -> In i (Instances performance) ->
               P (i_Metric_Type i) (formatMonthKey d)) ->
  keysJustified P (recordPerformance metricData performance).
Proof.
  intros Hinv HP. unfold recordPerformance.
  destruct (Period performance) as [d|]; [|assumption].
  specialize (HP d).
  revert metricData Hinv.
  induction (Instances performance) as [|i l IH]; intros metricData Hinv; simpl.
  - assumption.
  - apply IH.
    + intros i' Heq Hi'. apply HP; [assumption | now right].
    + apply recordInstance_justified; [assumption|]. apply HP; [reflexivity | now left].
Qed.

Lemma collectMetrics_justified item :
  keysJustified (populatesLegacy item) (collectMetrics item).
Proof.
  unfold collectMetrics.
  assert (forall l metricData,
             (forall p, In p l -> In p (it_Performance item)) ->
             keysJustified (populatesLegacy item) metricData ->
             keysJustified (populatesLegacy item) (foldl recordPerformance metricData l))
    as H.
  { induction l as [|p l IH]; intros metricData Hsub Hinv; simpl; [assumption|].
    apply IH; [intros; apply Hsub; now right|].
    apply recordPerformance_justified; [assumption|].
    intros d i Hd Hi. exists p, d, i. repeat split; auto. apply Hsub. now left. }
  apply H; [auto|]. intros mt data m v [].
Qed.

Lemma rowsLegacy_unpopulated requestData mc n i item row m :
  In row (rowsLegacy requestData mc n i item) -> In m mc ->
  ~ populatesLegacy item (Metric_Type row) m ->
  monthValues row !! m = Some 0.
Proof.
  intros Hrow Hin Hnot. unfold rowsLegacy in Hrow.
  apply in_map_iff in Hrow as ([mt data] & <- & Hmd).
  apply entries_In in Hmd.
  unfold mkEntry in *; simpl in *. rewrite addMonthlyData_lookup by assumption.
  destruct (monthlyValues data !! m) as [v|] eqn:Hv; [|reflexivity].
  exfalso. apply Hnot. exact (collectMetrics_justified item mt data m v Hmd Hv).
Qed.

(** C5.  Every row of a run carries exactly the month columns that
    [getMonthColumns] derives from the run's begin and end dates: the
    rows that [processApiResponse] returns under either schema, the
    no-data placeholder among them, the error row of [createErrorEntry],
    and so every row accumulated by the harvesting loop.  The error row
    holds 0 in every month, and a data row holds 0 in every month column
    that its report does not populate. *)
Theorem rows_carry_month_columns requestData :
  (forall accounts fetch,
      Forall (hasMonthColumns requestData)
             (results (harvest requestData accounts fetch)))
  /\ (forall jsonData account,
         Forall (hasMonthColumns requestData)
                (processed_entries (processApiResponse jsonData requestData account)))
  /\ (forall message account,
         hasMonthColumns requestData (createErrorEntry message requestData account)
         /\ allMonthsZero requestData (createErrorEntry message requestData account))
  /\ (forall n i b attrPerf metricType monthlyData m,
         In m (getMonthColumns (begin_date requestData) (end_date requestData)) ->
         ~ populates51 monthlyData m ->
         monthValues
           (entry51 requestData
              (getMonthColumns (begin_date requestData) (end_date requestData))
              n i b attrPerf (metricType, monthlyData)) !! m = Some 0)
  /\ (forall n i item row m,
         In row (rowsLegacy requestData
                   (getMonthColumns (begin_date requestData) (end_date requestData))
                   n i item) ->
         In m (getMonthColumns (begin_date requestData) (end_date requestData)) ->
         ~ populatesLegacy item (Metric_Type row) m ->
         monthValues row !! m = Some 0).
Proof.
  split; [apply harvest_hasMonthColumns|].
  split; [intros; apply processApiResponse_hasMonthColumns|].
  split.
  { intros message account. split.
    - apply placeholder_hasMonthColumns.
    - apply placeholder_allMonthsZero. }
  split.
  - intros. now apply entry51_unpopulated.
  - intros. eapply rowsLegacy_unpopulated; eassumption.
Qed.

Lemma rows_carry_month_columns_witness :
  Forall (hasMonthColumns (sampleRequest "TR_J1"))
    (processed_entries
       (processApiResponse twoJanuaryPeriods (sampleRequest "TR_J1") sampleAccount))
  /\ Forall (fun row => monthValues row !! "Feb-24" = Some 0)
       (rowsLegacy (sampleRequest "TR_J1")
          (getMonthColumns (begin_date (sampleRequest "TR_J1"))
                           (end_date (sampleRequest "TR_J1")))
          "Alpha Univ" "pnas:42"
          (sampleItem [requestsIn (mkDate 2024 0 1) 5; requestsIn (mkDate 2024 0 15) 3])).
Proof.
  destruct (rows_carry_month_columns (sampleRequest "TR_J1"))
    as (_ & Hrows & _ & _ & Hlegacy).
  split; [apply Hrows|].
  apply Forall_forall. intros row Hrow. apply list_elem_of_In in Hrow.
  apply (Hlegacy _ _ _ _ _ Hrow).
  - vm_compute. auto.
  - intros (p & d & i & Hp & Hd & Hm & _).
    destruct Hp as [<-|[<-|[]]]; injection Hd as <-; vm_compute in Hm; discriminate.
Defined.



(** C6.  When the fetch of an account throws, answers with a non-success
    status, or its body cannot be read, the loop appends exactly one row
    for the account and nothing else, counts the account as failed and
    leaves the success count alone.  The row has institution name ERROR,
    the account identifier as institution id, the error text after
    "Failed: " as title, metric type ERROR, total 0 and 0 in every
    month column; for status 500 the title is
    "Failed: API returned 500". *)
Theorem harvestAccount_failure requestData st account :
  let failedWith message :=
    {| results := results st ++ [createErrorEntry message requestData account];
       successful := successful st;
       failed := failed st + 1 |} in
  (forall message,
      harvestAccount requestData st account (throw message) = failedWith message)
  /\ (forall code body,
         harvestAccount requestData st account
           (inr {| ok := false; status := code; json := body |})
         = failedWith ("API returned " +:+ toString code))
  /\ (forall code message,
         harvestAccount requestData st account
           (inr {| ok := true; status := code; json := throw message |})
         = failedWith message)
  /\ (forall message,
         let row := createErrorEntry message requestData account in
         Institution_Name row = "ERROR"
         /\ Institution_ID row = customer_id account
         /\ Title row = "Failed: " +:+ message
         /\ Metric_Type row = "ERROR"
         /\ Reporting_Period_Total row = 0
         /\ allMonthsZero requestData row)
  /\ Title (createErrorEntry ("API returned " +:+ toString 500) requestData account)
     = "Failed: API returned 500".
Proof.
  cbv zeta. repeat split; try reflexivity.
  apply placeholder_allMonthsZero.
Qed.

(** *** The two passes of the legacy schema *)

Lemma collectMetrics_observations item :
  collectMetrics item = foldl recordObservation [] (observations item).
Proof.
  unfold collectMetrics, observations. rewrite foldl_flat_map.
  apply foldl_ext_eq. intros md p. unfold recordPerformance.
  destruct (Period p) as [d|]; [|reflexivity].
  rewrite foldl_map. reflexivity.
Qed.

Lemma recorded_keys_NoDup obs :
  NoDup (map fst (foldl recordObservation [] obs)).
Proof.
  induction obs as [|[[mt l] c] obs IH] using rev_ind; [constructor|].
  rewrite foldl_app. simpl. now apply set_keys_NoDup.
Qed.

Lemma countsOf_snoc obs mt o :
  countsOf (obs ++ [o]) mt
  = countsOf obs mt ++ (if ofMetric mt o then [snd o] else []).
Proof.
  unfold countsOf. rewrite List.filter_app, map_app. simpl.
  now destruct (ofMetric mt o).
Qed.

Lemma countsIn_snoc obs mt l o :
  countsIn (obs ++ [o]) mt l
  = countsIn obs mt l ++ (if ofMonth mt l o then [snd o] else []).
Proof.
  unfold countsIn. rewrite List.filter_app, map_app. simpl.
  now destruct (ofMonth mt l o).
Qed.

Lemma labelsOf_snoc obs mt o :
  labelsOf (obs ++ [o]) mt
  = labelsOf obs mt ++ (if ofMetric mt o then [snd (fst o)] else []).
Proof.
  unfold labelsOf. rewrite List.filter_app, map_app. simpl.
  now destruct (ofMetric mt o).
Qed.

Lemma storedMonths_snoc obs mt o :
  storedMonths (obs ++ [o]) mt
  = if ofMetric mt o then <[snd (fst o) := snd o]> (storedMonths obs mt)
    else storedMonths obs mt.
Proof. unfold storedMonths. now rewrite foldl_app. Qed.

Lemma ofMetric_false mt mt' l c :
  ofMetric mt (mt', l, c) = false -> mt' <> mt.
Proof.
  unfold ofMetric; simpl. intros E Heq. rewrite Heq, String.eqb_refl in E.
  discriminate.
Qed.

Lemma recorded_get_None obs mt :
  get (foldl recordObservation [] obs) mt = None ->
  countsOf obs mt = [] /\ storedMonths obs mt = ∅.
Proof.
  induction obs as [|[[mt' l] c] obs IH] using rev_ind; [auto|].
  rewrite foldl_app, countsOf_snoc, storedMonths_snoc. simpl.
  destruct (ofMetric mt (mt', l, c)) eqn:E.
  - apply String.eqb_eq in E. simpl in E. subst mt'. now rewrite get_set_eq.
  - rewrite get_set_ne by now apply ofMetric_false in E.
    intros H. destruct (IH H) as [-> ->]. auto.
Qed.

(** What the first pass holds for a metric type: the sum of its counts,
    and the month values stored one over the other. *)
Lemma recorded_get obs mt data :
  get (foldl recordObservation [] obs) mt = Some data ->
  total data = sumZ (countsOf obs mt) /\ monthlyValues data = storedMonths obs mt.
Proof.
  revert data. induction obs as [|[[mt' l] c] obs IH] using rev_ind; intros data.
  - discriminate.
  - rewrite foldl_app, countsOf_snoc, storedMonths_snoc, sumZ_app. simpl.
    destruct (ofMetric mt (mt', l, c)) eqn:E.
    + apply String.eqb_eq in E. simpl in E. subst mt'. rewrite get_set_eq.
      intros [= <-]. simpl.
      destruct (get (foldl recordObservation [] obs) mt) as [cur|] eqn:Hcur; simpl.
      * destruct (IH cur eq_refl) as [-> ->]. split; [lia | reflexivity].
      * destruct (recorded_get_None obs mt Hcur) as [-> ->]. simpl.
        split; [lia | reflexivity].
    + rewrite get_set_ne by now apply ofMetric_false in E.
      intros H. apply IH in H as [-> ->]. simpl. split; [lia | reflexivity].
Qed.

Lemma storedMonths_unique obs mt l :
  NoDup (labelsOf obs mt) ->
  default 0 (storedMonths obs mt !! l) = sumZ (countsIn obs mt l)
  /\ (storedMonths obs mt !! l = None <-> ~ In l (labelsOf obs mt)).
Proof.
  induction obs as [|[[mt' l'] c] obs IH] using rev_ind; intros Hnd.
  - split; [reflexivity|]. split; [intros _ []|reflexivity].
  - rewrite labelsOf_snoc in Hnd.
    rewrite labelsOf_snoc, countsIn_snoc, storedMonths_snoc, sumZ_app.
    unfold ofMonth. destruct (ofMetric mt (mt', l', c)) eqn:E;
      unfold ofMetric in E; simpl in *; rewrite E; simpl.
    + apply NoDup_app in Hnd as (Hnd & Hfresh & _).
      destruct (IH Hnd) as [IHv IHn].
      destruct (String.eqb l' l) eqn:El; simpl.
      * apply String.eqb_eq in El. subst l'. rewrite lookup_insert_eq. simpl.
        assert (~ In l (labelsOf obs mt)) as Hnot.
        { intros Hin. apply list_elem_of_In in Hin.
          apply (Hfresh _ Hin). constructor. }
        apply IHn in Hnot. rewrite Hnot in IHv. simpl in IHv.
        split; [lia|].
        split; [discriminate|]. intros H. exfalso. apply H.
        apply in_or_app. right. now left.
      * assert (l' <> l) as Hne
          by (intros Heq; rewrite Heq, String.eqb_refl in El; discriminate).
        rewrite lookup_insert_ne by assumption.
        split; [lia|]. rewrite IHn. split.
        -- intros H Hin. apply in_app_or in Hin as [Hin|[Hin|[]]]; auto.
        -- intros H Hin. apply H. apply in_or_app. now left.
    + rewrite app_nil_r in *. destruct (IH Hnd) as [IHv IHn].
      split; [lia | exact IHn].
Qed.


(** Summed over distinct month columns that cover the labels of a
    metric type, its per-month sums give the sum of all its counts. *)
Lemma countsIn_total obs mt mc :
  NoDup mc -> (forall l, In l (labelsOf obs mt) -> In l mc) ->
  sumZ (map (fun l => sumZ (countsIn obs mt l)) mc) = sumZ (countsOf obs mt).
Proof.
  intros Hnd. induction obs as [|[[mt' l'] c] obs IH]; intros Hcover.
  - unfold countsIn, countsOf. simpl. apply sumZ_map_zero.
  - unfold countsIn, countsOf, labelsOf in *. cbn [List.filter] in *.
    unfold ofMonth at 1. unfold ofMetric at 1 3. unfold ofMetric at 1 in Hcover.
    cbn [fst snd] in *.
    destruct (String.eqb mt' mt) eqn:E; cbn [andb map] in *.
    + transitivity
        (sumZ (map (fun l => (if String.eqb l' l then c else 0)
                             + sumZ (map snd (List.filter (ofMonth mt l) obs))) mc)).
      { f_equal. apply map_ext. intros l. destruct (String.eqb l' l); reflexivity. }
      rewrite sumZ_map_add, sumZ_indicator; [|assumption|apply Hcover; now left].
      rewrite IH; [reflexivity|]. intros l Hl. apply Hcover. now right.
    + apply IH. exact Hcover.
Qed.

Lemma recorded_get_Some obs mt l c :
  In (mt, l, c) obs -> is_Some (get (foldl recordObservation [] obs) mt).
Proof.
  induction obs as [|[[mt' l'] c'] obs IH] using rev_ind; [intros []|].
  rewrite foldl_app. simpl. intros Hin.
  destruct (String.eqb mt' mt) eqn:E.
  - apply String.eqb_eq in E. subst mt'. rewrite get_set_eq. eauto.
  - rewrite get_set_ne
      by (intros Heq; rewrite Heq, String.eqb_refl in E; discriminate).
    apply in_app_or in Hin as [Hin|[Hin|[]]]; [auto|].
    injection Hin as -> _ _. rewrite String.eqb_refl in E. discriminate.
Qed.

Lemma rowsLegacy_row requestData mc n i item row :
  In row (rowsLegacy requestData mc n i item) ->
  exists data,
    get (collectMetrics item) (Metric_Type row) = Some data
    /\ Reporting_Period_Total row = total data
    /\ monthValues row = addMonthlyData mc (monthlyValues data).
Proof.
  unfold rowsLegacy. intros Hrow.
  apply in_map_iff in Hrow as ([mt data] & <- & Hin).
  apply entries_In in Hin. exists data. simpl. split; [|auto].
  apply In_get; [|assumption].
  rewrite collectMetrics_observations. apply recorded_keys_NoDup.
Qed.

Lemma isPrototypeKey_In k : isPrototypeKey k = true <-> In k prototypeKeys.
Proof.
  unfold isPrototypeKey. rewrite existsb_exists. split.
  - intros (x & Hx & E). apply String.eqb_eq in E. now subst.
  - intros H. exists k. split; [assumption | apply String.eqb_refl].
Qed.

Lemma isPrototypeKey_false k : isPrototypeKey k = false -> ~ In k prototypeKeys.
Proof. intros H Hin. apply isPrototypeKey_In in Hin. congruence. Qed.

(** Without a metric type that names a member of [Object.prototype],
    the first pass over an item throws nothing. *)
Lemma ownMetricTypes_no_fault item :
  ownMetricTypes (observations item) ->
  flat_map faultsOfPerformance (it_Performance item) = [].
Proof.
  unfold ownMetricTypes, observations.
  induction (it_Performance item) as [|p ps IH]; [reflexivity|].
  cbn [flat_map]. intros H. apply Forall_app in H as [Hp Hps].
  rewrite (IH Hps), app_nil_r. unfold faultsOfPerformance.
  destruct (Period p) as [d|]; [|reflexivity]. cbv zeta.
  induction (Instances p) as [|inst insts IHi]; [reflexivity|].
  cbn [map flat_map] in *. apply Forall_cons in Hp as [Hinst Hinsts].
  cbn [fst] in Hinst.
  destruct (isPrototypeKey (i_Metric_Type inst)) eqn:E.
  - apply isPrototypeKey_In in E. contradiction.
  - now apply IHi.
Qed.

Lemma countsOf_abs obs mt :
  Z.abs (sumZ (countsOf obs mt)) <= sumZ (map (fun o => Z.abs (snd o)) obs).
Proof.
  unfold countsOf. induction obs as [|o obs IH]; [unfold sumZ; simpl; lia|].
  cbn [List.filter map].
  change (sumZ (?x :: ?xs)) with (x + sumZ xs).
  destruct (ofMetric mt o); cbn [map];
    [change (sumZ (?x :: ?xs)) with (x + sumZ xs)|]; lia.
Qed.

(** C2 (as amended).  In legacy-schema normalisation, for an item whose
    counts are exact JavaScript numbers and whose metric types are
    dictionary keys in their own right, the first pass throws nothing,
    every metric type encountered in the item gets a row, and the
    reporting-period total of a row is the sum of the counts of all
    instances of its metric type across every performance period of the
    item, itself an exact JavaScript number.  When no two instances of
    the metric type lie in periods with the same month label, the row's
    value in each month column is the sum of the counts of the instances
    of the type whose period maps to that label, and over distinct month
    columns that cover those labels the month values sum to the
    reporting-period total. *)
Theorem rowsLegacy_totals requestData mc n i item :
  exactCounts (observations item) ->
  ownMetricTypes (observations item) ->
  flat_map faultsOfPerformance (it_Performance item) = []
  /\ (forall mt l c, In (mt, l, c) (observations item) ->
        exists row, In row (rowsLegacy requestData mc n i item) /\ Metric_Type row = mt)
  /\ forall row, In row (rowsLegacy requestData mc n i item) ->
     let obs := observations item in
     let mt := Metric_Type row in
     Reporting_Period_Total row = sumZ (countsOf obs mt)
     /\ Z.abs (Reporting_Period_Total row) <= maxSafeInteger
     /\ (NoDup (labelsOf obs mt) ->
         (forall l, In l mc -> monthValues row !! l = Some (sumZ (countsIn obs mt l)))
         /\ (NoDup mc -> (forall l, In l (labelsOf obs mt) -> In l mc) ->
             sumZ (map (rowMonth row) mc) = Reporting_Period_Total row)).
Proof.
  intros Hexact Hown. split; [now apply ownMetricTypes_no_fault|].
  split.
  { intros mt l c Hin.
    destruct (recorded_get_Some _ _ _ _ Hin) as [data Hdata].
    rewrite <- collectMetrics_observations in Hdata.
    apply get_In in Hdata as (k & Hk & ->).
    apply entries_In_conv in Hk.
    eexists. split.
    - unfold rowsLegacy. apply in_map_iff. exists (mt, data). split; [reflexivity|exact Hk].
    - reflexivity. }
  intros row Hrow. cbv zeta.
  destruct (rowsLegacy_row _ _ _ _ _ _ Hrow) as (data & Hget & Htotal & Hmonths).
  rewrite collectMetrics_observations in Hget.
  apply recorded_get in Hget as [Hsum Hstored].
  split; [congruence|].
  split.
  { rewrite Htotal, Hsum. unfold exactCounts in Hexact.
    pose proof (countsOf_abs (observations item) (Metric_Type row)). lia. }
  intros Hunique.
  assert (forall l, In l mc ->
            monthValues row !! l
            = Some (sumZ (countsIn (observations item) (Metric_Type row) l))) as Hvalue.
  { intros l Hl. rewrite Hmonths, addMonthlyData_lookup by assumption.
    rewrite Hstored. f_equal. now apply storedMonths_unique. }
  split; [exact Hvalue|]. intros Hnd Hcover.
  rewrite Htotal, Hsum, <- (countsIn_total _ _ mc Hnd Hcover).
  f_equal. apply map_ext_in. intros l Hl. unfold rowMonth.
  now rewrite Hvalue.
Qed.

Lemma rowsLegacy_totals_witness :
  let requestData := sampleRequest "TR_J1" in
  let mc := getMonthColumns (begin_date requestData) (end_date requestData) in
  let item := sampleItem [requestsIn (mkDate 2024 0 1) 5; requestsIn (mkDate 2024 1 1) 3] in
  Forall (fun row =>
            Reporting_Period_Total row = 8
            /\ monthValues row !! "Jan-24" = Some 5
            /\ monthValues row !! "Feb-24" = Some 3
            /\ sumZ (map (rowMonth row) mc) = Reporting_Period_Total row)
         (rowsLegacy requestData mc "Alpha Univ" "pnas:42" item).
Proof.
  cbv zeta. apply Forall_forall. intros row Hrow. apply list_elem_of_In in Hrow.
  destruct (rowsLegacy_totals (sampleRequest "TR_J1")
              (getMonthColumns (begin_date (sampleRequest "TR_J1"))
                               (end_date (sampleRequest "TR_J1")))
              "Alpha Univ" "pnas:42"
              (sampleItem [requestsIn (mkDate 2024 0 1) 5; requestsIn (mkDate 2024 1 1) 3]))
    as (_ & _ & H).
  { unfold exactCounts. vm_compute. discriminate. }
  { unfold ownMetricTypes.
    repeat (constructor; [apply isPrototypeKey_false; vm_compute; reflexivity|]).
    constructor. }
  destruct (H row Hrow) as (Htotal & _ & Hmonths).
  assert (Metric_Type row = "Total_Item_Requests") as Hmt.
  { vm_compute in Hrow. destruct Hrow as [<-|[]]. reflexivity. }
  rewrite Hmt in *.
  destruct Hmonths as [Hvalue Hsum].
  { apply (bool_decide_unpack _). vm_compute. exact I. }
  split; [rewrite Htotal; reflexivity|].
  split; [rewrite Hvalue by (vm_compute; auto); reflexivity|].
  split; [rewrite Hvalue by (vm_compute; auto); reflexivity|].
  apply Hsum.
  - apply (bool_decide_unpack _). vm_compute. exact I.
  - vm_compute. intros l [<-|[<-|[]]]; auto.
Defined.

(** C2, counterexample.  Two performance periods of one legacy item
    begin in January 2024, with 5 and 3 requests.  The sum of the counts
    that map to Jan-24 is 8 and the total of the row is 8, but its
    Jan-24 column holds 3. *)
Lemma rowsLegacy_same_month_not_added :
  let requestData := sampleRequest "TR_J1" in
  let item := sampleItem [requestsIn (mkDate 2024 0 1) 5; requestsIn (mkDate 2024 0 15) 3] in
  sumZ (countsIn (observations item) "Total_Item_Requests" "Jan-24") = 8
  /\ map (fun row => (Metric_Type row, Reporting_Period_Total row,
                      monthValues row !! "Jan-24",
                      monthValues row !! "Feb-24",
                      monthValues row !! "Mar-24"))
         (processed_entries
            (processApiResponse twoJanuaryPeriods requestData sampleAccount))
     = [("Total_Item_Requests", 8, Some 3, Some 0, Some 0)].
Proof. cbv zeta. split; vm_compute; reflexivity. Qed.

(** ** Pivot Aggregator: proofs *)

(** *** Grouping *)

Lemma groupByInstitution_In validData k rows :
  In (k, rows) (groupByInstitution validData) ->
  exists row, In row validData /\ Institution_Name row = k.
Proof.
  unfold groupByInstitution.
  set (step := fun byInstitution row => _).
  assert (forall l (acc : obj (list Row)),
             In (k, rows) (foldl step acc l) ->
             In (k, rows) acc \/ exists row, In row l /\ Institution_Name row = k)
    as H.
  { induction l as [|r l IH]; intros acc Hin; simpl in *; [auto|].
    apply IH in Hin as [Hin|(row & Hrow & Hk)].
    - unfold step in Hin. apply set_In in Hin as [[-> _]|Hin]; eauto.
    - eauto. }
  intros Hin. apply H in Hin as [[]|Hin]. exact Hin.
Qed.

Lemma groupByInstitution_get validData k :
  default [] (get (groupByInstitution validData) k) = rowsOfInstitution k validData.
Proof.
  unfold groupByInstitution, rowsOfInstitution.
  set (step := fun byInstitution row => _).
  assert (forall l (acc : obj (list Row)),
             default [] (get (foldl step acc l) k)
             = default [] (get acc k)
                 ++ List.filter (fun r => String.eqb (Institution_Name r) k) l) as H.
  { induction l as [|r l IH]; intros acc; simpl.
    - now rewrite app_nil_r.
    - rewrite IH. unfold step.
      destruct (String.eqb (Institution_Name r) k) eqn:E.
      + apply String.eqb_eq in E. rewrite E, get_set_eq. simpl.
        now rewrite <- app_assoc.
      + rewrite get_set_ne; [reflexivity|].
        intros Heq. rewrite Heq, String.eqb_refl in E. discriminate. }
  rewrite H. reflexivity.
Qed.


(** *** The shape of the emitted blocks *)




Lemma pivotInstitutions_blocks mc reportType validData :
  fst (pivotInstitutions mc reportType validData)
  = flat_map (fun instName =>
                fst (pivotInstitution mc reportType instName
                       (rowsOfInstitution instName validData)))
             (sort (keys (groupByInstitution validData))).
Proof.
  unfold pivotInstitutions.
  set (step := fun '(pivotRows, grandTotals) instName => _).
  assert (forall l (acc : list PivotRow * Totals),
             fst (foldl step acc l)
             = fst acc ++ flat_map (fun instName =>
                                      fst (pivotInstitution mc reportType instName
                                             (rowsOfInstitution instName validData))) l)
    as H.
  { induction l as [|inst l IH]; intros [rows t]; simpl.
    - now rewrite app_nil_r.
    - rewrite IH. rewrite groupByInstitution_get.
      destruct (pivotInstitution mc reportType inst (rowsOfInstitution inst validData));
        simpl. now rewrite <- app_assoc. }
  rewrite H. reflexivity.
Qed.

Lemma pivotRowsOf_blocks data requestData :
  pivotRowsOf data requestData
  = flat_map (fun instName =>
                fst (pivotInstitution
                       (getMonthColumns (begin_date requestData) (end_date requestData))
                       (toLowerCase (report_type requestData)) instName
                       (rowsOfInstitution instName (List.filter isValidRow data))))
             (sortedInstitutions data)
    ++ [pivotRow (getMonthColumns (begin_date requestData) (end_date requestData))
          "Grand Total" 0
          (snd (pivotInstitutions
                  (getMonthColumns (begin_date requestData) (end_date requestData))
                  (toLowerCase (report_type requestData))
                  (List.filter isValidRow data)))].
Proof.
  unfold pivotRowsOf, sortedInstitutions.
  rewrite <- pivotInstitutions_blocks.
  destruct (pivotInstitutions _ _ _). reflexivity.
Qed.

Lemma metricRows_level mc lvl (group : obj Totals) :
  Forall (fun r => level r = lvl) (metricRows mc lvl group).
Proof.
  unfold metricRows. apply Forall_flat_map. intros mt.
  destruct (get group mt); repeat constructor.
Qed.

Lemma groupRows_levels mc k (group : obj Totals) :
  Forall (fun r => level r <> 0%nat) (groupRows mc k group).
Proof.
  unfold groupRows. constructor; [simpl; lia|].
  eapply Forall_impl; [apply metricRows_level|]. simpl. intros r ->. lia.
Qed.

(** An institution block starts with the level-0 row of the institution,
    which carries the institution totals; every other row of the block is
    nested. *)
Lemma pivotInstitution_shape mc reportType instName instRows :
  exists rest,
    fst (pivotInstitution mc reportType instName instRows)
    = pivotRow mc instName 0 (snd (pivotInstitution mc reportType instName instRows))
        :: rest
    /\ Forall (fun r => level r <> 0%nat) rest.
Proof.
  unfold pivotInstitution.
  destruct (String.eqb reportType "tr_j3"); [|destruct (String.eqb reportType "tr_j4")].
  - unfold pivotTrJ3. cbn [fst snd]. eexists. split; [reflexivity|].
    apply Forall_flat_map. intros a.
    destruct (get _ a); [apply groupRows_levels | constructor].
  - unfold pivotTrJ4. cbn [fst snd]. eexists. split; [reflexivity|].
    apply Forall_flat_map. intros y. apply groupRows_levels.
  - unfold pivotOther. cbn [fst snd]. eexists. split; [reflexivity|].
    eapply Forall_impl; [apply metricRows_level|]. simpl. intros r ->. lia.
Qed.

Lemma sortedInstitutions_In data instName :
  In instName (sortedInstitutions data) ->
  exists row, In row data /\ isValidRow row = true /\ Institution_Name row = instName.
Proof.
  unfold sortedInstitutions, sort. intros H.
  apply sortBy_In, keys_In in H as [rows H].
  apply groupByInstitution_In in H as (row & Hrow & Hname).
  apply filter_In in Hrow as [Hrow Hvalid]. eauto.
Qed.












(** C1, at the failing input.  The error row that [createErrorEntry]
    builds for a fetch failing with API returned 500 has metric type
    ERROR and a title that is not the word ERROR, so [formatAsPivot]
    takes it for a valid row: it appears in the pivot body as an
    institution named ERROR, and the output has no errors section. *)
Theorem formatAsPivot_error_row_in_body :
  let requestData := sampleRequest "TR_J1" in
  let row := createErrorEntry "API returned 500" requestData sampleAccount in
  Metric_Type row = "ERROR"
  /\ Title row = "Failed: API returned 500"
  /\ isValidRow row = true
  /\ isErrorRow row = false
  /\ pivotRowsOf [row] requestData
     = [{| label := "ERROR"; level := 0; row_total := 0; months := [0; 0; 0] |};
        {| label := "Grand Total"; level := 0; row_total := 0; months := [0; 0; 0] |}]
  /\ pivotLines [row] requestData
     = [join "," (map quoted [""; "Reporting_Period_Total"; "Jan-24"; "Feb-24"; "Mar-24"]);
        quoted "ERROR" +:+ ",0,0,0,0";
        quoted "Grand Total" +:+ ",0,0,0,0"].
Proof. cbv zeta. repeat split; vm_compute; reflexivity. Qed.

(** C3, at the failing input.  In a run of a report type other than
    tr_j3 and tr_j4, an institution whose only valid row has the metric
    type Limit_Exceeded gets a level-0 row with total 5 and no level-1
    row at all, so the totals of its children sum to 0; the Grand Total
    is 5. *)
Theorem pivot_institution_total_without_children :
  let requestData := sampleRequest "TR_J2" in
  let data := processed_entries (processApiResponse accessDeniedReport requestData sampleAccount) in
  map (fun row => (isValidRow row, Metric_Type row, Reporting_Period_Total row)) data
  = [(true, "Limit_Exceeded", 5)]
  /\ pivotRowsOf data requestData
     = [{| label := "Alpha Univ"; level := 0; row_total := 5; months := [5; 0; 0] |};
        {| label := "Grand Total"; level := 0; row_total := 5; months := [5; 0; 0] |}].
Proof. cbv zeta. split; vm_compute; reflexivity. Qed.

(** *** Totals of the pivot *)

Lemma levelTotal_app lvl a b :
  levelTotal lvl (a ++ b) = levelTotal lvl a + levelTotal lvl b.
Proof. unfold levelTotal. now rewrite List.filter_app, map_app, sumZ_app. Qed.

Lemma levelTotal_other lvl rows :
  Forall (fun r => level r <> lvl) rows -> levelTotal lvl rows = 0.
Proof.
  intros H. unfold levelTotal. rewrite filter_none; [reflexivity|].
  eapply Forall_impl; [exact H|]. simpl. intros r Hr.
  now apply Nat.eqb_neq.
Qed.

Lemma levelTotal_flat_map {A} lvl (f : A -> list PivotRow) l :
  levelTotal lvl (flat_map f l) = sumZ (map (fun x => levelTotal lvl (f x)) l).
Proof.
  induction l as [|x l IH]; [reflexivity|].
  cbn [flat_map map]. rewrite levelTotal_app, IH. reflexivity.
Qed.






(** The Grand Total is the sum of the level-0 totals of the institutions. *)
Lemma pivotRowsOf_grand_total data requestData :
  exists body grandTotal,
    pivotRowsOf data requestData = body ++ [grandTotal]
    /\ label grandTotal = "Grand Total"
    /\ level grandTotal = 0%nat
    /\ row_total grandTotal = levelTotal 0 body.
Proof.
  rewrite pivotRowsOf_blocks. do 2 eexists. split; [reflexivity|].
  split; [reflexivity|]. split; [reflexivity|].
  cbn [row_total pivotRow]. rewrite levelTotal_flat_map.
  set (mc := getMonthColumns _ _). set (rt := toLowerCase _).
  set (valid := List.filter isValidRow data).
  unfold pivotInstitutions, sortedInstitutions. fold valid.
  set (step := fun '(pivotRows, grandTotals) instName => _).
  assert (forall l (acc : list PivotRow * Totals),
             totals_total (snd (foldl step acc l))
             = totals_total (snd acc)
               + sumZ (map (fun inst =>
                              levelTotal 0
                                (fst (pivotInstitution mc rt inst
                                        (rowsOfInstitution inst valid)))) l)) as H.
  { induction l as [|inst l IH]; intros [rows t]; cbn [foldl map].
    - unfold sumZ; simpl. lia.
    - rewrite IH. unfold step. rewrite groupByInstitution_get.
      destruct (pivotInstitution_shape mc rt inst (rowsOfInstitution inst valid))
        as (rest & Hshape & Hrest).
      rewrite Hshape.
      destruct (pivotInstitution mc rt inst (rowsOfInstitution inst valid))
        as [rows' t'].
      cbn [fst snd] in *.
      change (?x :: rest) with ([x] ++ rest). rewrite levelTotal_app.
      rewrite (levelTotal_other 0 rest Hrest).
      assert (levelTotal 0 [pivotRow mc inst 0 t'] = totals_total t') as ->
        by (unfold levelTotal, sumZ; simpl; lia).
      change (sumZ (?x :: ?xs)) with (x + sumZ xs).
      cbn [addTotals totals_total]. lia. }
  rewrite H. simpl. lia.
Qed.

(** ** Scenarios *)

(** A legacy item with one period beginning on 15 January 2024 and one
    instance of five requests. *)
Example scenario_legacy_single_metric :
  map (fun row => (Metric_Type row, Reporting_Period_Total row,
                   map (rowMonth row) ["Jan-24"; "Feb-24"; "Mar-24"]))
      (processed_entries
         (processApiResponse
            {| Report_Header := Some sampleHeader;
               Report_Items := Some [sampleItem [requestsIn (mkDate 2024 0 15) 5]] |}
            (sampleRequest "TR_J1") sampleAccount))
  = [("Total_Item_Requests", 5, [5; 0; 0])].
Proof. vm_compute. reflexivity. Qed.

(** A current-schema item with requests in two months. *)
Example scenario_current_multi_month :
  map (fun row => (Metric_Type row, Reporting_Period_Total row,
                   map (rowMonth row) ["Jan-24"; "Feb-24"; "Mar-24"]))
      (processed_entries
         (processApiResponse currentSchemaReport (sampleRequest "TR_J1") sampleAccount))
  = [("Total_Item_Requests", 7, [3; 4; 0])].
Proof. vm_compute. reflexivity. Qed.

(** Institutions are listed in lexicographic order, whatever the order
    of the input. *)
Example scenario_pivot_ordering :
  outline (pivotRowsOf
             [sampleRow (sampleRequest "TR_J1") "Beta Univ" "" "Total_Item_Requests" 1;
              sampleRow (sampleRequest "TR_J1") "Alpha Univ" "" "Total_Item_Requests" 2]
             (sampleRequest "TR_J1"))
  = [(0%nat, "Alpha Univ"); (1%nat, "Total_Item_Requests");
     (0%nat, "Beta Univ"); (1%nat, "Total_Item_Requests");
     (0%nat, "Grand Total")].
Proof. vm_compute. reflexivity. Qed.

(** * Further properties of the worker *)

(** ** Enumeration and partitions *)

Lemma filter_partition_Permutation {A} (f : A -> bool) l :
  Permutation (List.filter f l ++ List.filter (fun x => negb (f x)) l) l.
Proof.
  induction l as [|x l IH]; simpl; [reflexivity|].
  destruct (f x); simpl.
  - now constructor.
  - rewrite <- Permutation_middle. now constructor.
Qed.

Lemma insertIndexed_Permutation {V} n (e : string * V) l :
  Permutation (insertIndexed n e l) ((n, e) :: l).
Proof.
  induction l as [|[m e'] l IH]; simpl; [reflexivity|].
  destruct (n <? m); [reflexivity|]. rewrite IH. apply perm_swap.
Qed.

(** [Object.entries] lists every property once: it only reorders them. *)
Lemma entries_Permutation {V} (o : obj V) : Permutation (entries o) o.
Proof.
  unfold entries.
  set (isIndex := fun e : string * V => isSome (indexKey (fst e))).
  set (step := fun acc e => _).
  assert (forall l acc,
             Permutation (map snd (foldl step acc l))
                         (map snd acc ++ List.filter isIndex l)) as H.
  { induction l as [|e l IH]; intros acc; simpl.
    - now rewrite app_nil_r.
    - rewrite IH. unfold step, isIndex.
      destruct (indexKey (fst e)) as [n|]; simpl; [|reflexivity].
      rewrite insertIndexed_Permutation. simpl. apply Permutation_middle. }
  rewrite H. simpl.
  rewrite <- (filter_partition_Permutation isIndex o) at 3.
  apply Permutation_app_head.
  erewrite filter_ext; [reflexivity|].
  intros e. unfold isIndex. now destruct (indexKey (fst e)).
Qed.

Lemma keys_NoDup {V} (o : obj V) : NoDup (map fst o) -> NoDup (keys o).
Proof.
  intros H. unfold keys.
  now rewrite (Permutation_map fst (entries_Permutation o)).
Qed.

Lemma keys_In_iff {V} (o : obj V) k : In k (keys o) <-> In k (map fst o).
Proof.
  unfold keys. split; apply Permutation_in.
  - apply Permutation_map, entries_Permutation.
  - symmetry. apply Permutation_map, entries_Permutation.
Qed.

(** ** Row Normalizer: further properties *)









Lemma rows51_withoutUsage requestData mc n i item :
  flat_map ap_Performance (default [] (it_Attribute_Performance item)) = [] ->
  rows51 requestData mc n i item = [].
Proof.
  unfold rows51. induction (default [] (it_Attribute_Performance item)) as [|ap l IH];
    simpl; [reflexivity|].
  intros H. apply app_eq_nil in H as [Hap Hl]. rewrite Hap. simpl. now apply IH.
Qed.


Lemma processApiResponse_success jsonData requestData account :
  success (processApiResponse jsonData requestData account) = true.
Proof.
  unfold processApiResponse. now destruct (default [] (Report_Items jsonData)).
Qed.



(** ** The harvesting loop: further properties *)

Lemma tryAccount_success requestData account fetched processedData :
  tryAccount requestData account fetched = inr processedData ->
  success processedData = true.
Proof.
  unfold tryAccount, bind, throw.
  destruct fetched as [|response]; [discriminate|].
  destruct (negb (ok response)); [discriminate|].
  destruct (json response) as [|jsonData]; [discriminate|].
  unfold callProcessApiResponse.
  destruct (processingError jsonData requestData); [discriminate|].
  intros [= <-]. apply processApiResponse_success.
Qed.

Lemma harvestAccount_step requestData st account fetched :
  harvestAccount requestData st account fetched
  = {| results := results st ++ rowsOfAccount requestData account fetched;
       successful := successful st
                     + (if threw (tryAccount requestData account fetched) then 0 else 1);
       failed := failed st
                 + (if threw (tryAccount requestData account fetched) then 1 else 0) |}.
Proof.
  unfold harvestAccount, rowsOfAccount.
  destruct (tryAccount requestData account fetched) as [message|processedData] eqn:E;
    simpl.
  - f_equal. lia.
  - rewrite (tryAccount_success _ _ _ _ E). f_equal; lia.
Qed.

Lemma harvest_fold requestData accounts fetch :
  let st := harvest requestData accounts fetch in
  results st
  = flat_map (fun account => rowsOfAccount requestData account (fetch account)) accounts
  /\ failed st
     = Z.of_nat (length (List.filter
                           (fun account =>
                              threw (tryAccount requestData account (fetch account)))
                           accounts))
  /\ successful st + failed st = Z.of_nat (length accounts).
Proof.
  cbv zeta. unfold harvest.
  set (init := {| results := []; successful := 0; failed := 0 |}).
  set (rows := fun account => rowsOfAccount requestData account (fetch account)).
  set (bad := fun account => threw (tryAccount requestData account (fetch account))).
  assert (forall l st,
             let st' := foldl (fun st account =>
                                 harvestAccount requestData st account (fetch account))
                              st l in
             results st' = results st ++ flat_map rows l
             /\ failed st' = failed st + Z.of_nat (length (List.filter bad l))
             /\ successful st' + failed st'
                = successful st + failed st + Z.of_nat (length l)) as H.
  { induction l as [|a l IH]; intros st; cbv zeta.
    - simpl. rewrite app_nil_r. repeat split; lia.
    - cbn [foldl]. destruct (IH (harvestAccount requestData st a (fetch a)))
        as (Hr & Hf & Hs).
      set (st' := foldl _ (harvestAccount requestData st a (fetch a)) l) in *.
      clearbody st'. rewrite harvestAccount_step in Hr, Hf, Hs.
      cbn [results failed successful] in Hr, Hf, Hs.
      fold (rows a) in Hr. fold (bad a) in Hf, Hs.
      cbn [flat_map List.filter].
      split; [rewrite Hr, <- app_assoc; reflexivity|].
      destruct (bad a); cbn [length]; rewrite ?Nat2Z.inj_succ; split; lia. }
  destruct (H accounts init) as (Hr & Hf & Hs). simpl in *.
  repeat split; assumption || lia.
Qed.

Lemma tryAccount_body requestData account code jsonData :
  tryAccount requestData account
    (inr {| ok := true; status := code; json := inr jsonData |})
  = callProcessApiResponse jsonData requestData account.
Proof. reflexivity. Qed.

(** X4.  The rows of a run are the rows of its accounts, in the order
    of the accounts: for each account either the rows normalised from
    its payload or its one error row.  The failed count is the number of
    accounts whose [try] block threw, and every account is counted
    exactly once, as successful or as failed.  The [try] block also
    covers the normaliser: for a response that is read and on which the
    normaliser throws, as on a legacy payload with a metric type that
    names a member of [Object.prototype], the account counts as failed
    and contributes its error row alone, with the message of that
    error; otherwise it contributes the rows of the normaliser. *)
Theorem harvest_accounts requestData accounts fetch :
  let st := harvest requestData accounts fetch in
  results st
  = flat_map (fun account => rowsOfAccount requestData account (fetch account)) accounts
  /\ failed st
     = Z.of_nat (length (List.filter
                           (fun account =>
                              threw (tryAccount requestData account (fetch account)))
                           accounts))
  /\ successful st + failed st = Z.of_nat (length accounts)
  /\ forall account code jsonData,
       fetch account = inr {| ok := true; status := code; json := inr jsonData |} ->
       match processingError jsonData requestData with
       | Some message =>
           threw (tryAccount requestData account (fetch account)) = true
           /\ rowsOfAccount requestData account (fetch account)
              = [createErrorEntry message requestData account]
       | None =>
           threw (tryAccount requestData account (fetch account)) = false
           /\ rowsOfAccount requestData account (fetch account)
              = processed_entries (processApiResponse jsonData requestData account)
       end.
Proof.
  cbv zeta.
  destruct (harvest_fold requestData accounts fetch) as (Hrows & Hfailed & Hcount).
  repeat (split; [assumption|]).
  intros account code jsonData Hfetch. unfold rowsOfAccount.
  rewrite Hfetch, tryAccount_body. unfold callProcessApiResponse.
  destruct (processingError jsonData requestData); split; reflexivity.
Qed.

Lemma harvest_accounts_witness :
  let requestData := sampleRequest "TR_J1" in
  let st := harvest requestData [sampleAccount; otherAccount] sampleFetch in
  failed st = 1
  /\ successful st = 1
  /\ map Title (rowsOfAccount requestData sampleAccount (sampleFetch sampleAccount))
     = ["Failed: Cannot set properties of undefined (setting 'Jan-24')"].
Proof.
  cbv zeta.
  destruct (harvest_accounts (sampleRequest "TR_J1") [sampleAccount; otherAccount]
              sampleFetch) as (_ & Hfailed & Hcount & Hbody).
  specialize (Hbody sampleAccount 200 inheritedMetricReport eq_refl).
  assert (processingError inheritedMetricReport (sampleRequest "TR_J1")
          = Some "Cannot set properties of undefined (setting 'Jan-24')") as Herror
    by (vm_compute; reflexivity).
  rewrite Herror in Hbody. destruct Hbody as [_ Hrows].
  assert (failed (harvest (sampleRequest "TR_J1") [sampleAccount; otherAccount]
                    sampleFetch) = 1) as Hone
    by (rewrite Hfailed; vm_compute; reflexivity).
  split; [exact Hone|].
  split; [rewrite Hone in Hcount; vm_compute in Hcount |- *; lia|].
  rewrite Hrows. vm_compute. reflexivity.
Defined.

Lemma mkEntry_columnPolicy requestData mc n i b mt t a y values :
  followsColumnPolicy requestData (mkEntry requestData mc n i b mt t a y values).
Proof.
  unfold followsColumnPolicy, mkEntry, isReportType. simpl.
  split; (destruct (String.eqb _ _) eqn:E;
          [apply String.eqb_eq in E | apply String.eqb_neq in E]);
    split; intros H; try (eexists; reflexivity); try assumption;
    try contradiction; destruct H; discriminate.
Qed.

Lemma placeholder_columnPolicy requestData mc n i t mt :
  followsColumnPolicy requestData (placeholder requestData mc n i t mt).
Proof.
  unfold followsColumnPolicy, placeholder, isReportType. simpl.
  split; (destruct (String.eqb _ _) eqn:E;
          [apply String.eqb_eq in E | apply String.eqb_neq in E]);
    split; intros H; try (eexists; reflexivity); try assumption;
    try contradiction; destruct H; discriminate.
Qed.

Lemma rowsOfAccount_columnPolicy requestData account fetched :
  Forall (followsColumnPolicy requestData) (rowsOfAccount requestData account fetched).
Proof.
  unfold rowsOfAccount.
  destruct (tryAccount requestData account fetched) as [message|processedData] eqn:E.
  { constructor; [apply placeholder_columnPolicy | constructor]. }
  unfold tryAccount, bind, throw in E.
  destruct fetched as [|response]; [discriminate|].
  destruct (negb (ok response)); [discriminate|].
  destruct (json response) as [|jsonData]; [discriminate|].
  unfold callProcessApiResponse in E.
  destruct (processingError jsonData requestData); [discriminate|].
  injection E as <-. unfold processApiResponse.
  destruct (default [] (Report_Items jsonData)) as [|item items].
  { constructor; [apply placeholder_columnPolicy | constructor]. }
  cbn [processed_entries]. apply Forall_flat_map. intros it.
  destruct (isVersion51 requestData (item :: items)); apply Forall_forall;
    intros r Hr; apply list_elem_of_In in Hr.
  - unfold rows51 in Hr. apply in_flat_map in Hr as (ap & _ & Hr).
    apply in_map_iff in Hr as ([mt md] & <- & _).
    unfold entry51. destruct (collectMonthly md). apply mkEntry_columnPolicy.
  - unfold rowsLegacy in Hr. apply in_map_iff in Hr as ([mt data] & <- & _).
    apply mkEntry_columnPolicy.
Qed.

(** X5.  Every row of a run, data row, no-data row or error row, has
    the access-type property exactly when the report type is tr_j3 and
    the year-of-publication property exactly when it is tr_j4, the
    report type compared in lower case; no row has both. *)
Theorem harvest_column_policy requestData accounts fetch :
  Forall (fun r => followsColumnPolicy requestData r
                   /\ ~ (is_Some (Access_Type r) /\ is_Some (YOP r)))
         (results (harvest requestData accounts fetch)).
Proof.
  destruct (harvest_fold requestData accounts fetch) as [-> _].
  apply Forall_flat_map. intros account.
  eapply Forall_impl; [apply rowsOfAccount_columnPolicy|]. simpl.
  intros r Hr. split; [exact Hr|].
  destruct Hr as [Ha Hy]. intros [H3 H4].
  apply Ha in H3. apply Hy in H4. rewrite H3 in H4. discriminate.
Qed.

(** ** Item Field Extractor: which entry decides *)

Lemma last_snoc {A} (l : list A) x : last (l ++ [x]) = Some x.
Proof. induction l as [|y [|z l] IH]; simpl in *; auto. Qed.

Lemma lastOfType_snoc t l e :
  lastOfType t (l ++ [e])
  = if String.eqb (Type_ e) t then Value e else lastOfType t l.
Proof.
  unfold lastOfType. rewrite List.filter_app. simpl.
  destruct (String.eqb (Type_ e) t).
  - now rewrite last_snoc.
  - now rewrite app_nil_r.
Qed.

Lemma scanId_fold l :
  foldl scanId ("", "", "", "") l
  = (lastOfType "DOI" l, lastOfType "Proprietary" l,
     lastOfType "Print_ISSN" l, lastOfType "Online_ISSN" l).
Proof.
  induction l as [|e l IH] using rev_ind; [reflexivity|].
  rewrite foldl_app, IH, !lastOfType_snoc. simpl.
  destruct (String.eqb (Type_ e) "DOI") eqn:E1.
  { apply String.eqb_eq in E1. rewrite E1. reflexivity. }
  destruct (String.eqb (Type_ e) "Proprietary") eqn:E2.
  { apply String.eqb_eq in E2. rewrite E2. reflexivity. }
  destruct (String.eqb (Type_ e) "Print_ISSN") eqn:E3.
  { apply String.eqb_eq in E3. rewrite E3. reflexivity. }
  destruct (String.eqb (Type_ e) "Online_ISSN"); reflexivity.
Qed.

Lemma findProprietary_first l : findProprietary l = firstOfType "Proprietary" l.
Proof.
  unfold findProprietary, firstOfType.
  induction l as [|e l IH]; simpl; [reflexivity|].
  destruct (String.eqb (Type_ e) "Proprietary"); [reflexivity | exact IH].
Qed.

(** X6.  For identifier lists, the item identifiers DOI, Proprietary,
    Print_ISSN and Online_ISSN each take the value of the last entry of
    their type, while the publisher id and the institution id take the
    value of the first entry of type Proprietary; each is empty when the
    list has no entry of the type.  The URI is always empty. *)
Theorem extractItemData_list_form item :
  (forall itemIds, it_Item_ID item = IdArr itemIds ->
     doi (extractItemData item) = lastOfType "DOI" itemIds
     /\ proprietary_id (extractItemData item) = lastOfType "Proprietary" itemIds
     /\ print_issn (extractItemData item) = lastOfType "Print_ISSN" itemIds
     /\ online_issn (extractItemData item) = lastOfType "Online_ISSN" itemIds)
  /\ (forall publisherIds, it_Publisher_ID item = IdArr publisherIds ->
        publisher_id (extractItemData item) = firstOfType "Proprietary" publisherIds)
  /\ (forall name institutionIds items,
        getInstitutionId {| Report_Header :=
                              Some {| h_Institution_Name := name;
                                      h_Institution_ID := IdArr institutionIds |};
                            Report_Items := items |}
        = firstOfType "Proprietary" institutionIds)
  /\ uri (extractItemData item) = "".
Proof.
  split; [|split; [|split]].
  - intros itemIds H. unfold extractItemData. rewrite H, scanId_fold.
    destruct (it_Publisher_ID item); auto.
  - intros publisherIds H. unfold extractItemData. rewrite H.
    destruct (match it_Item_ID item with
              | IdAbsent => _ | IdArr _ => _ | IdObj _ => _ end) as [[[? ?] ?] ?].
    simpl. apply findProprietary_first.
  - intros name institutionIds items. unfold getInstitutionId. simpl.
    apply findProprietary_first.
  - unfold extractItemData.
    destruct (match it_Item_ID item with
              | IdAbsent => _ | IdArr _ => _ | IdObj _ => _ end) as [[[? ?] ?] ?].
    reflexivity.
Qed.

Lemma extractItemData_list_form_witness :
  let ids := [{| Type_ := "DOI"; Value := "10.1/a" |};
              {| Type_ := "Print_ISSN"; Value := "0027-8424" |};
              {| Type_ := "DOI"; Value := "10.1/b" |}] in
  let item :=
    {| it_Title := "Proceedings"; it_Publisher := "NAS";
       it_Publisher_ID := IdArr [{| Type_ := "Proprietary"; Value := "p1" |};
                                 {| Type_ := "Proprietary"; Value := "p2" |}];
       it_Platform := "PNAS"; it_Item_ID := IdArr ids;
       it_Access_Type := ""; it_YOP := ""; it_Year_of_Publication := "";
       it_Performance := []; it_Attribute_Performance := None |} in
  doi (extractItemData item) = "10.1/b"
  /\ online_issn (extractItemData item) = ""
  /\ publisher_id (extractItemData item) = "p1".
Proof.
  cbv zeta.
  match goal with
  | |- doi (extractItemData ?it) = _ /\ _ =>
      destruct (extractItemData_list_form it) as (Hids & Hpub & _)
  end.
  destruct (Hids _ eq_refl) as (Hdoi & _ & _ & Hissn).
  rewrite Hdoi, Hissn, (Hpub _ eq_refl). repeat split; reflexivity.
Defined.

(** ** Splitting, and the month keys of the current schema *)

Lemma append_cons c s t : String c s +:+ t = String c (s +:+ t).
Proof. reflexivity. Qed.

Lemma append_nil_l s : "" +:+ s = s.
Proof. reflexivity. Qed.

Lemma rev_app_append a : forall b s,
  String.rev_app a b +:+ s = String.rev_app a (b +:+ s).
Proof. induction a as [|c a IH]; intros b s; simpl; [reflexivity | apply IH]. Qed.

Lemma rev_cons_append c cur s :
  String.rev (String c cur) +:+ s = String.rev cur +:+ String c s.
Proof. unfold String.rev. simpl. now rewrite !rev_app_append. Qed.

Lemma lacks_cons sep c s : lacks sep (String c s) <-> c <> sep /\ lacks sep s.
Proof. unfold lacks. simpl. apply (Forall_cons (fun c => c <> sep)). Qed.

Lemma split_go_lacks sep s : forall cur,
  lacks sep s -> split_go sep cur s = [String.rev cur +:+ s].
Proof.
  induction s as [|c s IH]; intros cur H; simpl.
  - f_equal. clear. generalize (String.rev cur). intros t.
    induction t as [|a t IHt]; [reflexivity|]. rewrite append_cons. now f_equal.
  - apply lacks_cons in H as [Hc Hs].
    destruct (Ascii.eqb c sep) eqn:E; [apply Ascii.eqb_eq in E; contradiction|].
    rewrite IH by assumption. now rewrite rev_cons_append.
Qed.

Lemma split_go_sep sep s1 : forall cur s2,
  lacks sep s1 ->
  split_go sep cur (s1 +:+ String sep s2)
  = (String.rev cur +:+ s1) :: split_go sep "" s2.
Proof.
  induction s1 as [|c s1 IH]; intros cur s2 H.
  - rewrite append_nil_l. simpl. rewrite Ascii.eqb_refl. f_equal.
    clear. generalize (String.rev cur). intros t.
    induction t as [|a t IHt]; [reflexivity|]. rewrite append_cons. now f_equal.
  - apply lacks_cons in H as [Hc Hs]. rewrite append_cons. simpl.
    destruct (Ascii.eqb c sep) eqn:E; [apply Ascii.eqb_eq in E; contradiction|].
    rewrite IH by assumption. now rewrite rev_cons_append.
Qed.

Lemma digitChar_not_dash d : 0 <= d < 10 -> digitChar d <> "-"%char.
Proof.
  intros Hd H. unfold digitChar in H. apply (f_equal nat_of_ascii) in H.
  rewrite nat_ascii_embedding in H by lia.
  change (nat_of_ascii "-") with 45%nat in H. lia.
Qed.

Lemma digitsRev_digits fuel : forall n,
  Forall (fun c => exists d, 0 <= d < 10 /\ c = digitChar d) (digitsRev fuel n).
Proof.
  induction fuel as [|fuel IH]; intros n; simpl; [constructor|].
  constructor.
  - exists (n mod 10). split; [zdiv | reflexivity].
  - destruct (n / 10 =? 0); [constructor | apply IH].
Qed.

Lemma toString_lacks_dash y : 0 <= y -> lacks "-" (toString y).
Proof.
  intros Hy. unfold toString, natToString, lacks.
  destruct (y <? 0) eqn:E; [apply Z.ltb_lt in E; lia|].
  rewrite list_ascii_of_string_of_list_ascii.
  apply Forall_rev.
  eapply Forall_impl; [apply digitsRev_digits|]. simpl.
  intros c (d & Hd & ->). now apply digitChar_not_dash.
Qed.

Lemma month_number_cases m :
  1 <= m <= 12 ->
  m = 1 \/ m = 2 \/ m = 3 \/ m = 4 \/ m = 5 \/ m = 6 \/ m = 7 \/ m = 8
  \/ m = 9 \/ m = 10 \/ m = 11 \/ m = 12.
Proof. lia. Qed.

Lemma convertApiMonth_parts ys ms n :
  lacks "-" ys -> lacks "-" ms -> parseIntStr ms = Some n ->
  convertApiMonthToDisplayMonth (ys +:+ String "-" ms)
  = monthAt (n - 1) +:+ "-" +:+ slice_neg 2 ys.
Proof.
  intros Hys Hms Hn. unfold convertApiMonthToDisplayMonth, split.
  rewrite split_go_sep by assumption. rewrite (split_go_lacks _ _ _ Hms).
  change (String.rev "" +:+ ys) with ys. change (String.rev "" +:+ ms) with ms.
  cbv zeta. cbn [nth]. now rewrite Hn.
Qed.

Lemma month_keys_parse m :
  1 <= m <= 12 ->
  lacks "-" (pad2 m) /\ lacks "-" (toString m)
  /\ parseIntStr (pad2 m) = Some m /\ parseIntStr (toString m) = Some m.
Proof.
  intros Hm. apply month_number_cases in Hm.
  repeat (destruct Hm as [-> | Hm]); try subst m;
    (split; [|split; [|split]]);
    try (vm_compute; reflexivity);
    unfold lacks; vm_compute; repeat (constructor; [discriminate|]); constructor.
Qed.

(** X7.  A month key of the current schema, the year, a hyphen and the
    month number with or without a leading zero, is converted to the
    label that [formatMonthKey] gives the dates of that month, so the
    counts of a 5.1 report land in the month columns that
    [getMonthColumns] derives. *)
Theorem convertApiMonth_matches_formatMonthKey y m d :
  0 <= y -> 1 <= m <= 12 ->
  convertApiMonthToDisplayMonth (toString y +:+ "-" +:+ pad2 m)
  = formatMonthKey (mkDate y (m - 1) d)
  /\ convertApiMonthToDisplayMonth (toString y +:+ "-" +:+ toString m)
     = formatMonthKey (mkDate y (m - 1) d).
Proof.
  intros Hy Hm. pose proof (toString_lacks_dash y Hy) as Hlacks.
  destruct (month_keys_parse m Hm) as (L1 & L2 & P1 & P2).
  change (toString y +:+ "-" +:+ pad2 m) with (toString y +:+ String "-" (pad2 m)).
  change (toString y +:+ "-" +:+ toString m)
    with (toString y +:+ String "-" (toString m)).
  rewrite (convertApiMonth_parts _ _ m Hlacks L1 P1),
          (convertApiMonth_parts _ _ m Hlacks L2 P2).
  split; reflexivity.
Qed.

Lemma convertApiMonth_matches_formatMonthKey_witness :
  convertApiMonthToDisplayMonth "2025-01" = formatMonthKey (mkDate 2025 0 15)
  /\ convertApiMonthToDisplayMonth "2025-1" = formatMonthKey (mkDate 2025 0 15).
Proof.
  apply (convertApiMonth_matches_formatMonthKey 2025 1 15); lia.
Defined.

(** X8.  No label that [getMonthColumns] returns is the name of a fixed
    column of a row or the [total] property of a totals object, so
    writing the month columns of a row, or of a totals object, never
    overwrites one of its other properties. *)
Theorem month_columns_are_not_properties b e :
  Forall (fun m => ~ In m rowProperties /\ m <> totalsProperty) (getMonthColumns b e).
Proof. apply getMonthColumns_not_properties. Qed.

(** ** Sorting *)

Lemma insertBy_Sorted {A} (R : A -> A -> Prop) (cmp : A -> A -> Z) x l :
  (forall y, In y l -> placed R cmp x y) ->
  Sorted R l -> Sorted R (insertBy cmp x l).
Proof.
  unfold placed. induction l as [|y l IH]; intros Hx Hl; simpl.
  - repeat constructor.
  - pose proof (Hx y (or_introl eq_refl)) as Hy.
    destruct (0 <? cmp y x) eqn:E.
    + constructor; [assumption|]. now constructor.
    + apply Sorted_inv in Hl as [Hl Hhd].
      constructor.
      * apply IH; [|assumption]. intros z Hz. apply Hx. now right.
      * destruct l as [|z l]; simpl; [now constructor|].
        destruct (0 <? cmp z x); constructor; [assumption|].
        now apply HdRel_inv in Hhd.
Qed.

Lemma sortBy_Sorted {A} (R : A -> A -> Prop) (cmp : A -> A -> Z) l :
  NoDup l ->
  (forall x y, In x l -> In y l -> x <> y -> placed R cmp x y) ->
  Sorted R (sortBy cmp l).
Proof.
  unfold sortBy.
  assert (forall l acc,
             Sorted R acc -> NoDup (acc ++ l) ->
             (forall x y, In x (acc ++ l) -> In y (acc ++ l) -> x <> y ->
                          placed R cmp x y) ->
             Sorted R (foldl (fun acc x => insertBy cmp x acc) acc l)) as H.
  { clear l. induction l as [|x l IH]; intros acc Hs Hnd Hp; simpl; [assumption|].
    assert (Permutation (insertBy cmp x acc ++ l) (acc ++ x :: l)) as Hperm.
    { rewrite insertBy_Permutation. simpl. apply Permutation_middle. }
    apply IH.
    - apply insertBy_Sorted; [|assumption]. intros y Hy.
      apply Hp; [apply in_or_app; right; now left | apply in_or_app; now left|].
      intros ->. apply NoDup_app in Hnd as (_ & Hdisj & _).
      apply (Hdisj y); [now apply list_elem_of_In | constructor].
    - now rewrite Hperm.
    - intros a b Ha Hb. apply Hp; eapply Permutation_in; eauto. }
  intros Hnd Hp. apply H; [constructor | assumption | assumption].
Qed.

Lemma sortBy_NoDup {A} (cmp : A -> A -> Z) l : NoDup l -> NoDup (sortBy cmp l).
Proof. intros H. now rewrite sortBy_Permutation. Qed.

Lemma compareUnits_antisym a : forall b,
  compareUnits b a = CompOpp (compareUnits a b).
Proof.
  induction a as [|x a IH]; intros [|y b]; cbn [compareUnits]; try reflexivity.
  rewrite (Z.compare_antisym x y).
  destruct (x ?= y); cbn [CompOpp]; [apply IH | reflexivity | reflexivity].
Qed.

Lemma compareUnits_trans a : forall b c,
  compareUnits a b <> Gt -> compareUnits b c <> Gt -> compareUnits a c <> Gt.
Proof.
  induction a as [|x a IH]; intros [|y b] [|z c]; cbn [compareUnits];
    try congruence.
  destruct (Z.compare_spec x y) as [->|Hxy|Hxy]; [| |congruence].
  - destruct (y ?= z); [apply IH | congruence | congruence].
  - destruct (Z.compare_spec y z) as [->|Hyz|Hyz]; [| |congruence].
    + intros _ _. apply Z.compare_lt_iff in Hxy. rewrite Hxy. discriminate.
    + intros _ _. assert (x < z) as H by lia.
      apply Z.compare_lt_iff in H. rewrite H. discriminate.
Qed.

Lemma codeUnitsLe_iff a b :
  codeUnitsLe a b <-> compareUnits (codeUnits a) (codeUnits b) <> Gt.
Proof.
  unfold codeUnitsLe, compareStrings.
  destruct (compareUnits (codeUnits a) (codeUnits b)); split; intros H;
    try discriminate; try lia; congruence.
Qed.

Lemma compareStrings_placed x y : placed codeUnitsLe compareStrings x y.
Proof.
  unfold placed. destruct (0 <? compareStrings y x) eqn:E.
  - apply Z.ltb_lt in E. apply codeUnitsLe_iff.
    unfold compareStrings in E. rewrite (compareUnits_antisym (codeUnits x)) in E.
    destruct (compareUnits (codeUnits x) (codeUnits y)); cbn in E; try discriminate; lia.
  - apply Z.ltb_ge in E. exact E.
Qed.

Lemma codeUnitsLe_transitive : Relations_1.Transitive codeUnitsLe.
Proof.
  intros a b c Hab Hbc. apply codeUnitsLe_iff. apply codeUnitsLe_iff in Hab, Hbc.
  now apply (compareUnits_trans _ (codeUnits b)).
Qed.

Lemma codeUnits_ascii c s :
  (N_of_ascii c < 128)%N ->
  codeUnits (String c s) = Z.of_N (N_of_ascii c) :: codeUnits s.
Proof.
  intros H. unfold codeUnits. cbn [list_ascii_of_string map codeUnitsOf].
  destruct (Z.of_N (N_of_ascii c) <? 128) eqn:E; [reflexivity|].
  apply Z.ltb_ge in E. lia.
Qed.

(** On ASCII strings the order of the code units is the order of the
    bytes. *)
Lemma compareUnits_ascii a : forall b,
  isAscii a -> isAscii b ->
  compareUnits (codeUnits a) (codeUnits b) = String.compare a b.
Proof.
  unfold isAscii.
  induction a as [|x a IH]; intros [|y b] Ha Hb; cbn [list_ascii_of_string] in *.
  - reflexivity.
  - apply Forall_cons in Hb as [Hy _]. now rewrite codeUnits_ascii.
  - apply Forall_cons in Ha as [Hx _]. now rewrite codeUnits_ascii.
  - apply Forall_cons in Ha as [Hx Ha]. apply Forall_cons in Hb as [Hy Hb].
    rewrite !codeUnits_ascii by assumption. cbn [compareUnits String.compare].
    rewrite N2Z.inj_compare. unfold Ascii.compare.
    destruct (N_of_ascii x ?= N_of_ascii y)%N; [now apply IH | reflexivity | reflexivity].
Qed.

Lemma codeUnitsLe_ascii a b :
  isAscii a -> isAscii b -> codeUnitsLe a b -> String.le a b.
Proof.
  intros Ha Hb H. apply codeUnitsLe_iff in H.
  rewrite (compareUnits_ascii a b Ha Hb) in H.
  unfold String.le, String.leb. destruct (String.compare a b); congruence || exact I.
Qed.

(** An astral character, two surrogate code units, sorts before a
    character of the last part of the basic plane, although its bytes
    are larger: U+20BB7 before U+FF21. *)
Lemma sort_astral_before_fullwidth :
  let astral := string_of_list_ascii (map ascii_of_nat [240; 160; 174; 183]%nat) in
  let fullwidth := string_of_list_ascii (map ascii_of_nat [239; 188; 161]%nat) in
  codeUnits astral = [55362; 57271]
  /\ codeUnits fullwidth = [65313]
  /\ sort [fullwidth; astral] = [astral; fullwidth]
  /\ String.compare astral fullwidth = Gt.
Proof. cbv zeta. repeat split; vm_compute; reflexivity. Qed.

Lemma String_le_transitive : Relations_1.Transitive String.le.
Proof. intros x y z. apply (transitivity (R := String.le)). Qed.

Lemma Sorted_refine {A} (R R' : A -> A -> Prop) (P : A -> Prop) l :
  (forall a b, P a -> P b -> R a b -> R' a b) ->
  Forall P l -> Sorted R l -> Sorted R' l.
Proof.
  intros Himp HP HS. induction HS as [|a l HS IH Hhd]; [constructor|].
  apply Forall_cons in HP as [Ha HP]. constructor; [now apply IH|].
  destruct Hhd as [|b l Hab]; constructor.
  apply Forall_cons in HP as [Hb _]. now apply Himp.
Qed.

(** ** Pivot Aggregator: further properties *)

Lemma isErrorRow_negb r : isErrorRow r = negb (isValidRow r).
Proof.
  unfold isErrorRow, isValidRow.
  now destruct (String.eqb (Title r) "ERROR"), (String.eqb (Metric_Type r) "No Data").
Qed.

(** X9.  The pivot splits its input in two: every input row is either
    among the rows it groups or among the rows of the errors section,
    never both and never neither. *)
Theorem formatAsPivot_partition data :
  Permutation (List.filter isValidRow data ++ List.filter isErrorRow data) data
  /\ forall r, isErrorRow r = negb (isValidRow r).
Proof.
  split; [|apply isErrorRow_negb].
  erewrite (filter_ext isErrorRow); [apply filter_partition_Permutation|].
  apply isErrorRow_negb.
Qed.

Lemma groupByInstitution_keys_NoDup validData :
  NoDup (map fst (groupByInstitution validData)).
Proof.
  unfold groupByInstitution.
  induction validData as [|r l IH] using rev_ind; [constructor|].
  rewrite foldl_app. simpl. now apply set_keys_NoDup.
Qed.

Lemma sortedInstitutions_NoDup data : NoDup (sortedInstitutions data).
Proof.
  unfold sortedInstitutions, sort.
  apply sortBy_NoDup, keys_NoDup, groupByInstitution_keys_NoDup.
Qed.

Lemma groupByInstitution_key validData row :
  In row validData ->
  In (Institution_Name row) (map fst (groupByInstitution validData)).
Proof.
  unfold groupByInstitution.
  induction validData as [|r l IH] using rev_ind; [intros []|].
  rewrite foldl_app. simpl. intros Hin.
  assert (forall k v (o : obj (list Row)), In k (map fst (set o k v))) as Hset.
  { clear. intros k v o. induction o as [|[k' v'] o IH]; simpl; [now left|].
    destruct (String.eqb k' k) eqn:E; simpl.
    - apply String.eqb_eq in E. now left.
    - now right. }
  assert (forall k k' v (o : obj (list Row)),
             In k' (map fst o) -> In k' (map fst (set o k v))) as Hkeep.
  { clear. intros k k' v o. induction o as [|[k0 v0] o IH]; simpl; [intros []|].
    destruct (String.eqb k0 k); simpl; intros [H|H]; auto. }
  apply in_app_or in Hin as [Hin|[->|[]]].
  - apply Hkeep. now apply IH.
  - apply Hset.
Qed.

Lemma sortedInstitutions_covers data row :
  In row data -> isValidRow row = true ->
  In (Institution_Name row) (sortedInstitutions data).
Proof.
  intros Hrow Hvalid. unfold sortedInstitutions, sort.
  apply sortBy_In, keys_In_iff, groupByInstitution_key, filter_In. auto.
Qed.

Lemma levelLabels_blocks data requestData :
  levelLabels 0 (pivotRowsOf data requestData)
  = sortedInstitutions data ++ ["Grand Total"].
Proof.
  rewrite pivotRowsOf_blocks. unfold levelLabels.
  rewrite List.filter_app, map_app. f_equal.
  induction (sortedInstitutions data) as [|inst l IH]; [reflexivity|].
  cbn [flat_map]. rewrite List.filter_app, map_app, IH.
  destruct (pivotInstitution_shape
              (getMonthColumns (begin_date requestData) (end_date requestData))
              (toLowerCase (report_type requestData)) inst
              (rowsOfInstitution inst (List.filter isValidRow data)))
    as (rest & -> & Hrest).
  cbn [List.filter pivotRow level Nat.eqb map label].
  rewrite filter_none; [reflexivity|].
  eapply Forall_impl; [exact Hrest|]. simpl. intros r Hr. now apply Nat.eqb_neq.
Qed.

Lemma sortedInstitutions_Sorted data : Sorted codeUnitsLe (sortedInstitutions data).
Proof.
  unfold sortedInstitutions, sort. apply sortBy_Sorted.
  - apply keys_NoDup, groupByInstitution_keys_NoDup.
  - intros x y _ _ _. apply compareStrings_placed.
Qed.

(** X10.  For every report type, when no grouped row has an institution
    name that names a member of [Object.prototype], the level-0 rows of
    the pivot body are the institution names of the grouped rows, each
    once, followed by the Grand Total row; none of them names such a
    member; and whatever the order of the input they stand in the
    ascending order of the default sort, the order of their UTF-16 code
    units, which for ASCII names is the order of their bytes. *)
Theorem pivot_institutions_sorted data requestData :
  (forall row, In row data -> isValidRow row = true ->
               ~ In (Institution_Name row) prototypeKeys) ->
  levelLabels 0 (pivotRowsOf data requestData)
  = sortedInstitutions data ++ ["Grand Total"]
  /\ Forall (fun instName => ~ In instName prototypeKeys) (sortedInstitutions data)
  /\ StronglySorted codeUnitsLe (sortedInstitutions data)
  /\ (Forall isAscii (sortedInstitutions data) ->
      StronglySorted String.le (sortedInstitutions data))
  /\ NoDup (sortedInstitutions data)
  /\ forall instName,
       In instName (sortedInstitutions data)
       <-> exists row, In row data /\ isValidRow row = true
                       /\ Institution_Name row = instName.
Proof.
  intros Hown.
  split; [apply levelLabels_blocks|]. split; [|split; [|split; [|split]]].
  - apply Forall_forall. intros instName Hin. apply list_elem_of_In in Hin.
    apply sortedInstitutions_In in Hin as (row & Hrow & Hvalid & <-).
    now apply Hown.
  - apply Sorted_StronglySorted; [apply codeUnitsLe_transitive|].
    apply sortedInstitutions_Sorted.
  - intros Hascii. apply Sorted_StronglySorted; [apply String_le_transitive|].
    apply (Sorted_refine codeUnitsLe String.le isAscii).
    + apply codeUnitsLe_ascii.
    + exact Hascii.
    + apply sortedInstitutions_Sorted.
  - apply sortedInstitutions_NoDup.
  - intros instName. split; [apply sortedInstitutions_In|].
    intros (row & Hrow & Hvalid & <-). now apply sortedInstitutions_covers.
Qed.

Lemma pivot_institutions_sorted_witness :
  let requestData := sampleRequest "TR_J1" in
  let named inst := sampleRow requestData inst "Controlled" "Total_Item_Requests" 1 in
  let data := [named "Zeta"; named "alpha"; named "Alpha"; named "Zeta"] in
  levelLabels 0 (pivotRowsOf data requestData) = ["Alpha"; "Zeta"; "alpha"; "Grand Total"]
  /\ StronglySorted String.le (sortedInstitutions data).
Proof.
  cbv zeta.
  match goal with
  | |- levelLabels 0 (pivotRowsOf ?data ?rd) = _ /\ _ =>
      destruct (pivot_institutions_sorted data rd)
        as (Hlabels & _ & _ & Hbytes & _)
  end.
  - intros row [<-|[<-|[<-|[<-|[]]]]] _; apply isPrototypeKey_false;
      vm_compute; reflexivity.
  - split; [rewrite Hlabels; vm_compute; reflexivity|].
    apply Hbytes. vm_compute.
    repeat (constructor; [repeat (constructor; [reflexivity|]); constructor|]).
    constructor.
Defined.












(** *** Year-of-publication groups *)










(** ** Pivot Aggregator: the totals and the rows they count *)














(** *** Additive quantities of the totals objects

    The total and each month column of a totals object are maintained in
    the same way: set to 0 at creation, increased by the quantity of a
    row when the row is added, and by the quantity of another totals
    object when that is added.  What the pivot holds for such a quantity
    is derived once. *)

Section Additive.

Variable mc : list string.
Variable q : Totals -> Z.
Variable w : Row -> Z.
Hypothesis q_zero : q (zeroTotals mc) = 0.
Hypothesis q_addRow : forall t row, q (addRow mc t row) = q t + w row.
Hypothesis q_addTotals : forall acc t, q (addTotals mc acc t) = q acc + q t.












End Additive.

(** The two instances: the total, and a month column of distinct month
    columns. *)










(** *** Totals level by level *)





(** *** The rows behind the totals *)




(** ** Flat CSV Renderer: the cells of a run *)

Lemma rowProperty_month row h :
  ~ In h rowProperties -> rowProperty row h = toString <$> (monthValues row !! h).
Proof.
  intros H. unfold rowProperty.
  repeat (destruct (String.eqb h _) eqn:E;
          [apply String.eqb_eq in E; exfalso; apply H; rewrite E;
           cbv [rowProperties baseColumns app In]; tauto
          | clear E]).
  reflexivity.
Qed.

Lemma rowProperty_fixed row h :
  In h (baseColumns ++ ["Metric_Type"; "Reporting_Period_Total"]) ->
  is_Some (rowProperty row h).
Proof.
  cbv [baseColumns app In]. intros H.
  repeat (destruct H as [<-|H]; [eexists; reflexivity|]). destruct H.
Qed.

Lemma harvest_columnPolicy requestData accounts fetch :
  Forall (followsColumnPolicy requestData)
         (results (harvest requestData accounts fetch)).
Proof.
  destruct (harvest_fold requestData accounts fetch) as [-> _].
  apply Forall_flat_map. intros account. apply rowsOfAccount_columnPolicy.
Qed.

Lemma csvHeaders_cases requestData h :
  In h (csvHeaders requestData) ->
  In h (baseColumns ++ ["Metric_Type"; "Reporting_Period_Total"])
  \/ (h = "YOP" /\ isReportType requestData "tr_j4" = true)
  \/ (h = "Access_Type" /\ isReportType requestData "tr_j3" = true)
  \/ In h (getMonthColumns (begin_date requestData) (end_date requestData)).
Proof.
  unfold csvHeaders. intros H.
  apply in_app_or in H as [H|H]; [|now right; right; right].
  apply in_app_or in H as [H|H]; [left; apply in_or_app; now left|].
  apply in_app_or in H as [H|H].
  { destruct (isReportType requestData "tr_j4"); [|destruct H].
    destruct H as [<-|[]]. right. left. auto. }
  apply in_app_or in H as [H|H].
  { destruct (isReportType requestData "tr_j3"); [|destruct H].
    destruct H as [<-|[]]. right. right. left. auto. }
  left. apply in_or_app. now right.
Qed.

(** X16.  In the flat CSV of a run no cell stands for an undefined
    property: every row of the run, data row, no-data row or error row,
    has a value for every column of the header, the fixed columns, the
    column that the report type adds and every month column. *)
Theorem csv_cells_defined requestData accounts fetch :
  Forall (fun row =>
            Forall (fun h => is_Some (rowProperty row h)) (csvHeaders requestData))
         (results (harvest requestData accounts fetch)).
Proof.
  pose proof (harvest_columnPolicy requestData accounts fetch) as Hpolicy.
  pose proof (harvest_hasMonthColumns requestData accounts fetch) as Hmonths.
  rewrite Forall_forall in Hpolicy, Hmonths. apply Forall_forall. intros row Hrow.
  specialize (Hpolicy row Hrow). specialize (Hmonths row Hrow).
  apply Forall_forall. intros h Hh. apply list_elem_of_In in Hh.
  apply csvHeaders_cases in Hh as [Hh|[[-> Hj4]|[[-> Hj3]|Hh]]].
  - now apply rowProperty_fixed.
  - destruct Hpolicy as [_ Hyop]. apply Hyop. unfold isReportType in Hj4.
    now apply String.eqb_eq.
  - destruct Hpolicy as [Hat _]. apply Hat. unfold isReportType in Hj3.
    now apply String.eqb_eq.
  - pose proof (getMonthColumns_not_properties
                  (begin_date requestData) (end_date requestData)) as Hnp.
    rewrite Forall_forall in Hnp.
    destruct (Hnp h (proj2 (list_elem_of_In _ _) Hh)) as [Hnot _].
    rewrite (rowProperty_month row h Hnot).
    apply fmap_is_Some. apply elem_of_dom. unfold hasMonthColumns in Hmonths.
    rewrite Hmonths. apply elem_of_list_to_set. now apply list_elem_of_In.
Qed.

(** ** Summary Computer *)

Lemma existsb_eqb_In x l : existsb (String.eqb x) l = true <-> In x l.
Proof.
  rewrite existsb_exists. split.
  - intros (y & Hy & E). apply String.eqb_eq in E. now subst.
  - intros H. exists x. split; [assumption | apply String.eqb_refl].
Qed.

Lemma spreadSet_fold xs : forall seen,
  NoDup seen ->
  let out := foldl (fun seen x =>
                      if existsb (String.eqb x) seen then seen else seen ++ [x])
                   seen xs in
  NoDup out /\ forall x, In x out <-> In x seen \/ In x xs.
Proof.
  induction xs as [|y xs IH]; intros seen Hnd; cbv zeta; cbn [foldl].
  - split; [assumption|]. intros x. simpl. tauto.
  - destruct (existsb (String.eqb y) seen) eqn:E.
    + destruct (IH seen Hnd) as [Hnd' Hin]. split; [assumption|].
      intros x. rewrite Hin. apply existsb_eqb_In in E. simpl.
      split; [tauto|]. intros [H|[<-|H]]; auto.
    + assert (~ In y seen) as Hy.
      { intros H. apply existsb_eqb_In in H. congruence. }
      destruct (IH (seen ++ [y])) as [Hnd' Hin].
      { apply NoDup_app. split; [assumption|]. split.
        - intros x Hx Hx'. apply list_elem_of_In in Hx, Hx'.
          destruct Hx' as [<-|[]]. contradiction.
        - apply NoDup_singleton. }
      split; [assumption|]. intros x. rewrite Hin, in_app_iff. simpl. tauto.
Qed.

Lemma spreadSet_NoDup xs : NoDup (spreadSet xs).
Proof. apply (spreadSet_fold xs []). constructor. Qed.

Lemma spreadSet_In xs x : In x (spreadSet xs) <-> In x xs.
Proof.
  destruct (spreadSet_fold xs [] (NoDup_nil_2 (A := string))) as [_ H].
  unfold spreadSet. rewrite H. simpl. tauto.
Qed.

Lemma firstn_In {A} n (l : list A) x : In x (firstn n l) -> In x l.
Proof.
  revert l. induction n as [|n IH]; intros [|y l]; simpl; try tauto.
  intros [H|H]; auto.
Qed.

Lemma firstn_NoDup {A} n (l : list A) : NoDup l -> NoDup (firstn n l).
Proof.
  revert l. induction n as [|n IH]; intros [|y l] H; simpl; try constructor.
  - apply NoDup_cons in H as [Hy H]. intros Hin. apply Hy.
    apply list_elem_of_In. apply list_elem_of_In in Hin. now apply firstn_In in Hin.
  - apply NoDup_cons in H as [_ H]. now apply IH.
Qed.

(** X17.  The summary lists at most five metric types, without
    repetition; each is the metric type of a row of the run and is
    neither empty nor one of the marks ERROR and No Data.  The platform
    count is the number of distinct non-empty platform names of the
    rows. *)
Theorem summary_of_rows results :
  let shown := summary_metricTypes (summarize results) in
  (length shown <= 5)%nat
  /\ NoDup shown
  /\ (forall m, In m shown ->
        m <> "" /\ m <> "ERROR" /\ m <> "No Data"
        /\ exists r, In r results /\ Metric_Type r = m)
  /\ exists names,
       NoDup names
       /\ (forall p, In p names
                     <-> p <> "" /\ exists r, In r results /\ Platform r = p)
       /\ summary_uniquePlatforms (summarize results) = length names.
Proof.
  cbv zeta. unfold summarize. cbn [summary_metricTypes summary_uniquePlatforms].
  split; [apply firstn_le_length|].
  split; [apply firstn_NoDup, spreadSet_NoDup|].
  split.
  - intros m Hm. apply firstn_In in Hm. unfold metricTypes in Hm.
    apply spreadSet_In, filter_In in Hm as [Hm Hkeep].
    apply andb_true_iff in Hkeep as [Hkeep H3].
    apply andb_true_iff in Hkeep as [H1 H2].
    apply negb_true_iff, String.eqb_neq in H1, H2, H3.
    apply in_map_iff in Hm as (r & <- & Hr). eauto 10.
  - exists (platforms results). split; [apply spreadSet_NoDup|].
    split; [|reflexivity].
    intros p. unfold platforms. rewrite spreadSet_In, filter_In, in_map_iff.
    rewrite negb_true_iff, String.eqb_neq.
    split; [intros [(r & <- & Hr) Hp] | intros [Hp (r & Hr & <-)]]; eauto.
Qed.




(** ** Flat CSV Renderer: reading the text back *)

Lemma append_assoc' a b c : (a +:+ b) +:+ c = a +:+ (b +:+ c).
Proof.
  induction a as [|x a IH]; [reflexivity|].
  rewrite !append_cons. now rewrite IH.
Qed.

Lemma append_nil_r' a : a +:+ "" = a.
Proof.
  induction a as [|x a IH]; [reflexivity|]. rewrite append_cons. now rewrite IH.
Qed.

Lemma quoted_append v rest :
  quoted (doubleQuotes v) +:+ rest
  = String (ascii_of_nat 34) (doubleQuotes v +:+ String (ascii_of_nat 34) rest).
Proof.
  unfold quoted, dquote. rewrite append_cons, append_nil_l.
  rewrite append_cons. f_equal. rewrite append_assoc'.
  now rewrite append_cons, append_nil_l.
Qed.

Lemma readCsv_body v : forall field record records rest,
  readCsv InQuotes field record records
    (doubleQuotes v +:+ String (ascii_of_nat 34) rest)
  = readCsv QuoteSeen (rev (list_ascii_of_string v) ++ field) record records rest.
Proof.
  induction v as [|c v IH]; intros field record records rest.
  - reflexivity.
  - cbn [doubleQuotes list_ascii_of_string rev].
    rewrite <- app_assoc. cbn [app].
    destruct (Ascii.eqb c (ascii_of_nat 34)) eqn:E.
    + rewrite !append_cons. cbn [readCsv]. unfold isQuote. rewrite E.
      apply IH.
    + rewrite append_cons. cbn [readCsv]. unfold isQuote. rewrite E.
      apply IH.
Qed.

Lemma readCsv_cell v record records rest :
  readCsv FieldStart [] record records (quoted (doubleQuotes v) +:+ rest)
  = readCsv QuoteSeen (rev (list_ascii_of_string v)) record records rest.
Proof.
  rewrite quoted_append. cbn [readCsv]. unfold isQuote. rewrite Ascii.eqb_refl.
  rewrite readCsv_body. now rewrite app_nil_r.
Qed.

Lemma endField_read v record :
  endField (rev (list_ascii_of_string v)) record = v :: record.
Proof.
  unfold endField. now rewrite rev_involutive, string_of_list_ascii_of_string.
Qed.

Lemma join_cons2 sep x y l : join sep (x :: y :: l) = x +:+ sep +:+ join sep (y :: l).
Proof. reflexivity. Qed.

(** A record of at least one cell, followed by a line feed or by the end
    of the text. *)
Lemma readCsv_record vs : forall v record records,
  (forall rest,
      readCsv FieldStart [] record records
        (join "," (map (fun v => quoted (doubleQuotes v)) (v :: vs))
           +:+ String (ascii_of_nat 10) rest)
      = readCsv FieldStart [] [] (rev (rev (v :: vs) ++ record) :: records) rest)
  /\ readCsv FieldStart [] record records
       (join "," (map (fun v => quoted (doubleQuotes v)) (v :: vs)))
     = Some (rev (rev (rev (v :: vs) ++ record) :: records)).
Proof.
  induction vs as [|v2 vs IH]; intros v record records.
  - cbn [map join]. split.
    + intros rest. rewrite readCsv_cell. cbn [readCsv].
      unfold endRecord. now rewrite endField_read.
    + rewrite <- (append_nil_r' (quoted (doubleQuotes v))).
      rewrite readCsv_cell. cbn [readCsv].
      unfold endRecord. now rewrite endField_read.
  - destruct (IH v2 (v :: record) records) as [IHa IHb].
    assert (rev (v :: v2 :: vs) ++ record = rev (v2 :: vs) ++ v :: record) as Hrev.
    { change (rev (v :: v2 :: vs)) with (rev (v2 :: vs) ++ [v]).
      now rewrite <- app_assoc. }
    rewrite Hrev. change (map ?f (v :: ?l)) with (f v :: map f l).
    change (map ?f (v2 :: ?l)) with (f v2 :: map f l) in *.
    rewrite join_cons2. split.
    + intros rest. rewrite !append_assoc'. rewrite readCsv_cell.
      rewrite append_cons, append_nil_l. cbn [readCsv].
      rewrite endField_read. apply IHa.
    + rewrite readCsv_cell.
      rewrite append_cons, append_nil_l. cbn [readCsv].
      rewrite endField_read. apply IHb.
Qed.

Lemma readCsv_records h hs (cells : list (string -> string)) : forall first records,
  readCsv FieldStart [] [] records
    (join newline
       (map (fun f => join "," (map (fun x => quoted (doubleQuotes (f x))) (h :: hs)))
            (first :: cells)))
  = Some (rev records ++ map (fun f => map f (h :: hs)) (first :: cells)).
Proof.
  induction cells as [|second cells IH]; intros first records.
  - destruct (readCsv_record (map first hs) (first h) [] records) as [_ Hb].
    rewrite app_nil_r, rev_involutive in Hb.
    cbn [map] in Hb. rewrite map_map in Hb.
    cbn [map]. change (join newline [?x]) with x. rewrite Hb. reflexivity.
  - destruct (readCsv_record (map first hs) (first h) [] records) as [Ha _].
    rewrite app_nil_r, rev_involutive in Ha.
    cbn [map] in Ha. rewrite map_map in Ha.
    specialize (IH second (map first (h :: hs) :: records)).
    change (map ?f (first :: ?l)) with (f first :: map f l).
    change (map ?f (second :: ?l)) with (f second :: map f l) in *.
    rewrite join_cons2. unfold newline at 1.
    rewrite append_cons, append_nil_l.
    cbn [map] in *. rewrite Ha, IH. cbn [rev]. now rewrite <- app_assoc.
Qed.

(** *** The header holds no quote character *)

Lemma doubleQuotes_lacks s : lacks (ascii_of_nat 34) s -> doubleQuotes s = s.
Proof.
  induction s as [|c s IH]; intros H; [reflexivity|].
  apply lacks_cons in H as [Hc Hs]. cbn [doubleQuotes].
  destruct (Ascii.eqb c (ascii_of_nat 34)) eqn:E;
    [apply Ascii.eqb_eq in E; contradiction|].
  now rewrite IH.
Qed.

Lemma lacks_append c a b : lacks c a -> lacks c b -> lacks c (a +:+ b).
Proof.
  intros Ha Hb. induction a as [|x a IH]; [exact Hb|].
  apply lacks_cons in Ha as [Hx Ha]. rewrite append_cons.
  apply lacks_cons. split; [assumption | now apply IH].
Qed.

Lemma digitChar_not_quote d : 0 <= d < 10 -> digitChar d <> ascii_of_nat 34.
Proof.
  intros Hd H. unfold digitChar in H. apply (f_equal nat_of_ascii) in H.
  rewrite !nat_ascii_embedding in H by lia. lia.
Qed.

Lemma natToString_lacks_quote n : lacks (ascii_of_nat 34) (natToString n).
Proof.
  unfold natToString, lacks. rewrite list_ascii_of_string_of_list_ascii.
  apply Forall_rev.
  eapply Forall_impl; [apply digitsRev_digits|]. simpl.
  intros c (d & Hd & ->). now apply digitChar_not_quote.
Qed.

Lemma toString_lacks_quote n : lacks (ascii_of_nat 34) (toString n).
Proof.
  unfold toString. destruct (n <? 0); [|apply natToString_lacks_quote].
  apply lacks_cons. split; [discriminate | apply natToString_lacks_quote].
Qed.

Lemma slice_neg_lacks c k s : lacks c s -> lacks c (slice_neg k s).
Proof.
  unfold slice_neg, lacks. intros H.
  rewrite list_ascii_of_string_of_list_ascii. now apply Forall_drop.
Qed.

Lemma monthAt_lacks_quote i : lacks (ascii_of_nat 34) (monthAt i).
Proof.
  destruct (monthAt_cases i) as [-> | H].
  - unfold lacks. cbn. repeat (constructor; [discriminate|]). constructor.
  - cbv [monthNames In] in H.
    repeat (destruct H as [<- | H];
            [unfold lacks; cbn; repeat (constructor; [discriminate|]); constructor|]).
    destruct H.
Qed.

Lemma formatMonthKey_lacks_quote d : lacks (ascii_of_nat 34) (formatMonthKey d).
Proof.
  unfold formatMonthKey. cbv zeta.
  apply lacks_append; [apply monthAt_lacks_quote|].
  apply lacks_append.
  - unfold lacks. cbn. constructor; [discriminate | constructor].
  - apply slice_neg_lacks, toString_lacks_quote.
Qed.

Lemma csvHeaders_lack_quote requestData :
  Forall (fun h => doubleQuotes h = h) (csvHeaders requestData).
Proof.
  unfold csvHeaders. apply Forall_app. split.
  - destruct (isReportType requestData "tr_j4"), (isReportType requestData "tr_j3");
      cbv [baseColumns app]; repeat (constructor; [reflexivity|]); constructor.
  - destruct (getMonthColumns_total (begin_date requestData) (end_date requestData))
      as (l & Hloop & ->).
    apply monthLoop_labels in Hloop; [|constructor].
    eapply Forall_impl; [exact Hloop|]. simpl.
    intros m [d ->]. apply doubleQuotes_lacks, formatMonthKey_lacks_quote.
Qed.

(** X19.  The flat CSV of a non-empty row list reads back, with a
    reader of quoted CSV, as the header followed by one record per row
    in the order of the rows, each with one field per header column
    holding the text of that property of the row, empty when the row
    does not have it.  Commas, line feeds and quote characters inside
    the values do not break the records. *)
Theorem convertToCSV_read_back data requestData :
  data <> [] ->
  readQuotedCsv (convertToCSV data requestData)
  = Some (csvHeaders requestData
            :: map (fun row => map (cellText row) (csvHeaders requestData)) data).
Proof.
  intros Hdata. destruct data as [|row rows]; [contradiction|].
  unfold convertToCSV. cbv zeta. fold (csvHeaders requestData).
  pose proof (csvHeaders_lack_quote requestData) as Hq.
  destruct (csvHeaders requestData) as [|h hs] eqn:E.
  { unfold csvHeaders, baseColumns in E. cbn [app] in E. discriminate E. }
  set (headers := h :: hs) in *.
  assert (join "," (map quoted headers)
          = join "," (map (fun x => quoted (doubleQuotes x)) headers)) as ->.
  { f_equal. apply map_ext_in. intros x Hx. rewrite Forall_forall in Hq.
    now rewrite (Hq x (proj2 (list_elem_of_In _ _) Hx)). }
  assert (map (fun row0 : Row =>
                 join ","
                   (map (fun h0 => match rowProperty row0 h0 with
                                   | Some v => quoted (doubleQuotes v)
                                   | None => quoted ""
                                   end) headers)) (row :: rows)
          = map (fun r => join "," (map (fun x => quoted (doubleQuotes (cellText r x)))
                                        headers))
                (row :: rows)) as ->.
  { apply map_ext. intros r. f_equal. apply map_ext. intros x.
    unfold cellText. now destruct (rowProperty r x). }
  unfold readQuotedCsv.
  pose proof (readCsv_records h hs (map cellText (row :: rows)) (fun s => s) [])
    as Hread.
  cbn [rev app map] in Hread. rewrite map_id, !map_map in Hread.
  exact Hread.
Qed.

Lemma convertToCSV_read_back_witness :
  let requestData := sampleRequest "TR_J1" in
  let mc := getMonthColumns (begin_date requestData) (end_date requestData) in
  let item :=
    {| title := String (ascii_of_nat 34) "Cell, the journal";
       publisher := String (ascii_of_nat 10) "Press";
       publisher_id := ""; platform := "PNAS"; doi := ""; proprietary_id := "";
       print_issn := ""; online_issn := ""; uri := "" |} in
  let row := mkEntry requestData mc "Alpha Univ" "id" item
               "Total_Item_Requests" 5 "" "" {["Jan-24" := 5]} in
  readQuotedCsv (convertToCSV [row] requestData)
  = Some [csvHeaders requestData; map (cellText row) (csvHeaders requestData)].
Proof.
  cbv zeta.
  match goal with
  | |- readQuotedCsv (convertToCSV ?data ?rd) = _ =>
      apply (convertToCSV_read_back data rd)
  end.
  discriminate.
Defined.
(** ** Request URL *)

Lemma formEncode_cons c s :
  formEncode (String c s) = formEncode (String c "") +:+ formEncode s.
Proof.
  cbn [formEncode].
  destruct (N_of_ascii c =? 32)%N; [reflexivity|].
  destruct (formSafe c); reflexivity.
Qed.

Lemma decodeFirst_encode c r :
  decodeFirst (formEncode (String c "") +:+ r) = Some (c, r).
Proof. destruct c as [[] [] [] [] [] [] [] []]; reflexivity. Qed.

Lemma formEncode_separators c :
  countChar "&" (formEncode (String c "")) = 0%nat
  /\ countChar "=" (formEncode (String c "")) = 0%nat.
Proof. destruct c as [[] [] [] [] [] [] [] []]; split; reflexivity. Qed.

Lemma formEncode_inj s1 : forall s2, formEncode s1 = formEncode s2 -> s1 = s2.
Proof.
  induction s1 as [|c1 s1 IH]; intros [|c2 s2] H.
  - reflexivity.
  - rewrite formEncode_cons in H. apply (f_equal decodeFirst) in H.
    rewrite decodeFirst_encode in H. discriminate H.
  - rewrite formEncode_cons in H. apply (f_equal decodeFirst) in H.
    rewrite decodeFirst_encode in H. discriminate H.
  - rewrite (formEncode_cons c1), (formEncode_cons c2) in H.
    apply (f_equal decodeFirst) in H. rewrite !decodeFirst_encode in H.
    injection H as -> H. f_equal. now apply IH.
Qed.

Lemma countChar_append c a b :
  countChar c (a +:+ b) = (countChar c a + countChar c b)%nat.
Proof.
  induction a as [|x a IH]; [reflexivity|].
  rewrite append_cons. cbn [countChar]. rewrite IH. lia.
Qed.

Lemma formEncode_count s :
  countChar "&" (formEncode s) = 0%nat /\ countChar "=" (formEncode s) = 0%nat.
Proof.
  induction s as [|c s [IH1 IH2]]; [split; reflexivity|].
  rewrite formEncode_cons, !countChar_append, IH1, IH2.
  destruct (formEncode_separators c) as [-> ->]. split; reflexivity.
Qed.

Lemma countChar_lacks c s : countChar c s = 0%nat -> lacks c s.
Proof.
  induction s as [|x s IH]; intros H; [constructor|].
  cbn [countChar] in H. apply lacks_cons.
  destruct (Ascii.eqb x c) eqn:E; [lia|].
  apply Ascii.eqb_neq in E. split; [assumption | apply IH; lia].
Qed.

Lemma append_inj_l p a b : p +:+ a = p +:+ b -> a = b.
Proof.
  induction p as [|x p IH]; [trivial|].
  rewrite !append_cons. intros [= H]. now apply IH.
Qed.

Lemma separator_unique sep a1 : forall a2 r1 r2,
  lacks sep a1 -> lacks sep a2 ->
  a1 +:+ String sep r1 = a2 +:+ String sep r2 -> a1 = a2 /\ r1 = r2.
Proof.
  induction a1 as [|x a1 IH]; intros [|y a2] r1 r2 H1 H2 H.
  - rewrite !append_nil_l in H. injection H as ->. auto.
  - rewrite append_nil_l, append_cons in H. injection H as <- _.
    apply lacks_cons in H2 as [H2 _]. contradiction.
  - rewrite append_nil_l, append_cons in H. injection H as -> _.
    apply lacks_cons in H1 as [H1 _]. contradiction.
  - rewrite !append_cons in H. injection H as -> H.
    apply lacks_cons in H1 as [_ H1]. apply lacks_cons in H2 as [_ H2].
    destruct (IH a2 r1 r2 H1 H2 H) as [-> ->]. auto.
Qed.

Lemma query_inj r1 c1 b1 e1 r2 c2 b2 e2 :
  "requestor_id=" +:+ formEncode r1 +:+ String "&"
    ("customer_id=" +:+ formEncode c1 +:+ String "&"
       ("begin_date=" +:+ formEncode b1 +:+ String "&"
          ("end_date=" +:+ formEncode e1)))
  = "requestor_id=" +:+ formEncode r2 +:+ String "&"
      ("customer_id=" +:+ formEncode c2 +:+ String "&"
         ("begin_date=" +:+ formEncode b2 +:+ String "&"
            ("end_date=" +:+ formEncode e2))) ->
  r1 = r2 /\ c1 = c2 /\ b1 = b2 /\ e1 = e2.
Proof.
  intros H.
  apply (append_inj_l "requestor_id=") in H.
  apply separator_unique in H as [Hr H];
    try (apply countChar_lacks, formEncode_count).
  apply (append_inj_l "customer_id=") in H.
  apply separator_unique in H as [Hc H];
    try (apply countChar_lacks, formEncode_count).
  apply (append_inj_l "begin_date=") in H.
  apply separator_unique in H as [Hb H];
    try (apply countChar_lacks, formEncode_count).
  apply (append_inj_l "end_date=") in H.
  apply formEncode_inj in Hr, Hc, Hb, H. auto.
Qed.

(** X20.  Whatever the account identifiers and the dates contain, the
    query string of the request URL holds exactly four parameters: the
    serialized values bring in no ampersand and no equals sign, so the
    query has three ampersands and four equals signs.  The report type
    stands in the path as it was given, not serialized and not lowered. *)
Theorem buildApiUrl_query requestData account beginText endText :
  exists query,
    buildApiUrl requestData account beginText endText
    = (if String.eqb (format requestData) "5.1"
       then "https://www.pnas.org/r51/reports"
       else "https://www.pnas.org/reports")
        +:+ "/" +:+ report_type requestData +:+ "?" +:+ query
    /\ countChar "&" query = 3%nat
    /\ countChar "=" query = 4%nat.
Proof.
  eexists. split; [reflexivity|].
  unfold searchParams. cbn [map join].
  rewrite !countChar_append.
  destruct (formEncode_count (requestor_id account)) as [-> ->].
  destruct (formEncode_count (customer_id account)) as [-> ->].
  destruct (formEncode_count beginText) as [-> ->].
  destruct (formEncode_count endText) as [-> ->].
  split; reflexivity.
Qed.

(** X21.  The request URL determines its parameters: for one request,
    two accounts or two date texts that differ in anything give
    different URLs. *)
Theorem buildApiUrl_injective requestData account1 account2 begin1 begin2 end1 end2 :
  account1 <> account2 \/ begin1 <> begin2 \/ end1 <> end2 ->
  buildApiUrl requestData account1 begin1 end1
  <> buildApiUrl requestData account2 begin2 end2.
Proof.
  intros Hdiff H. unfold buildApiUrl in H. cbv zeta in H.
  do 3 apply append_inj_l in H. apply (append_inj_l "?") in H.
  apply (query_inj (requestor_id account1) (customer_id account1) begin1 end1
                   (requestor_id account2) (customer_id account2) begin2 end2)
    in H as (Hr & Hc & Hb & He).
  destruct account1 as [c1 r1], account2 as [c2 r2]. cbn in Hr, Hc. subst.
  destruct Hdiff as [Hd|[Hd|Hd]]; now apply Hd.
Qed.

Lemma buildApiUrl_injective_witness :
  buildApiUrl (sampleRequest "TR_J1")
    {| customer_id := "a&b"; requestor_id := "r" |} "2024-01-01" "2024-03-31"
  <> buildApiUrl (sampleRequest "TR_J1")
       {| customer_id := "a"; requestor_id := "r" |} "2024-01-01" "2024-03-31".
Proof.
  apply buildApiUrl_injective. left. discriminate.
Defined.

(** ** File name *)

Lemma removeChar_lacks c s : lacks c (removeChar c s).
Proof.
  induction s as [|a s IH]; [constructor|]. cbn [removeChar].
  destruct (Ascii.eqb a c) eqn:E; [exact IH|].
  apply Ascii.eqb_neq in E. apply lacks_cons. auto.
Qed.

(** X22.  The file name depends on the time of the export only through
    the date, the text of the timestamp before its first T, from which
    every hyphen is dropped: exports of one request at two times of the
    same day get the same name, and the date part of the name holds no
    hyphen.  An absent format counts as 5 and the report type is
    lowered. *)
Theorem generateFilename_date requestData day time :
  lacks "T" day ->
  generateFilename requestData (day +:+ "T" +:+ time)
  = "bulk_counter_"
      +:+ (if String.eqb (format requestData) "" then "5" else format requestData)
      +:+ "-" +:+ toLowerCase (report_type requestData)
      +:+ "_" +:+ removeChar "-" day
  /\ lacks "-" (removeChar "-" day)
  /\ forall time',
       generateFilename requestData (day +:+ "T" +:+ time')
       = generateFilename requestData (day +:+ "T" +:+ time).
Proof.
  intros Hday.
  assert (forall t, nth 0 (split "T" (day +:+ "T" +:+ t)) "" = day) as Hsplit.
  { intros t. unfold split.
    change (day +:+ "T" +:+ t) with (day +:+ String "T" t).
    rewrite split_go_sep by assumption. reflexivity. }
  unfold generateFilename. cbv zeta. rewrite Hsplit.
  split; [reflexivity|]. split; [apply removeChar_lacks|].
  intros time'. now rewrite Hsplit.
Qed.

Lemma generateFilename_date_witness :
  generateFilename (sampleRequest "TR_J1") "2024-05-17T08:30:00.000Z"
  = "bulk_counter_5-tr_j1_20240517".
Proof.
  destruct (generateFilename_date (sampleRequest "TR_J1") "2024-05-17" "08:30:00.000Z")
    as [H _].
  - unfold lacks. cbn. repeat (constructor; [discriminate|]). constructor.
  - exact H.
Defined.
(** ** The schema of a payload *)

(** X23.  The schema is decided once for the whole payload.  When the
    payload is taken for the current schema, because the requested
    format is 5.1 or because its first item has the per-attribute
    breakdown, the rows come only from the items that have the
    breakdown: an item without it contributes no row, whatever usage its
    legacy periods hold, and the response still counts as a success. *)
Theorem processApiResponse_current_schema jsonData requestData account item items :
  Report_Items jsonData = Some (item :: items) ->
  isVersion51 requestData (item :: items) = true ->
  processApiResponse jsonData requestData account
  = {| processed_entries :=
         flat_map (rows51 requestData
                     (getMonthColumns (begin_date requestData) (end_date requestData))
                     match Report_Header jsonData with
                     | Some h => h_Institution_Name h
                     | None => ""
                     end
                     (getInstitutionId jsonData))
                  (List.filter (fun it => isSome (it_Attribute_Performance it))
                               (item :: items));
       success := true |}.
Proof.
  intros Hitems Hversion. unfold processApiResponse. rewrite Hitems.
  change (default [] (Some (item :: items))) with (item :: items).
  cbv iota beta zeta. rewrite Hversion. f_equal.
  generalize (item :: items). intros l.
  induction l as [|it l IH]; [reflexivity|].
  cbn [flat_map List.filter]. rewrite IH.
  destruct (it_Attribute_Performance it) eqn:E; [reflexivity|].
  cbn [isSome]. rewrite rows51_withoutUsage; [reflexivity|].
  now rewrite E.
Qed.

Lemma processApiResponse_current_schema_witness :
  processApiResponse
    {| Report_Header := Some sampleHeader;
       Report_Items := Some [sampleItem [requestsIn (mkDate 2024 0 1) 5]] |}
    {| format := "5.1"; report_type := "TR_J1";
       begin_date := mkDate 2024 0 1; end_date := mkDate 2024 2 31;
       formatted := false |}
    sampleAccount
  = {| processed_entries := []; success := true |}.
Proof.
  rewrite (processApiResponse_current_schema _ _ _
             (sampleItem [requestsIn (mkDate 2024 0 1) 5]) []);
    reflexivity.
Defined.

(** ** Pivot Aggregator: every row is a sum of input rows *)















